(** * The directory notifier (package [dirnotifier])

    A shallow embedding of [DirectoryNotifier]: its constructor [New], the
    background goroutine [initializeWatcher] and the registration call
    [NotifierForFile], together with the parts of [fsnotify], [sync.Map] and
    Go channels that they use.

    Granularity.  [sync.Map.LoadOrStore] and [sync.Map.LoadAndDelete] are
    atomic, so a call of [NotifierForFile] and the handling of one event by
    the goroutine are modelled as single transitions of one shared [World];
    an execution is an interleaving of such transitions. *)

From Stdlib Require Import ZArith Ascii.
From stdpp Require Import gmap strings list fin_maps pretty sorting.

Local Open Scope Z_scope.

(** ** Go values *)

(** [uint32] values are integers in [0, 2^32); a conversion wraps. *)
Definition uint32 : Type := Z.
Definition to_uint32 (z : Z) : uint32 := z mod 2 ^ 32.

(** A [chan struct{}] is identified by its address in the channel heap. *)
Abbreviation chan := nat (only parsing).

(** Go's [error] values: the ones reported by the operating system through
    [fsnotify], and the ones built with [errors.Errorf]. *)
Inductive error : Type :=
  | OSError (msg : string)
  | Errorf (msg : string).

#[global] Instance error_eq_dec : EqDecision error.
Proof. solve_decision. Defined.

(** ** Channels *)

Module channel.

(** The heap of notification channels: [h !! c = Some false] is an open
    channel, [Some true] a closed one.  Nothing is ever sent on these
    channels, so their one-slot buffer stays empty and is not modelled. *)
Abbreviation heap := (list bool) (only parsing).

(** [make(chan struct{}, 1)]: a fresh, open channel. *)
Definition make (h : heap) : chan * heap := (length h, h ++ [false]).

(** [close(c)]: panics ([None]) on a closed channel and on an address that
    is not a channel. *)
Definition close (c : chan) (h : heap) : option heap :=
  match h !! c with
  | Some false => Some (<[c := true]> h)
  | _ => None
  end.

End channel.

(** ** sync.Map, with the stored values being channels *)

Module syncMap.

(** [m.LoadOrStore(key, value)] returns [(actual, loaded)]. *)
Definition LoadOrStore (key : string) (value : chan) (m : gmap string chan)
  : (chan * bool) * gmap string chan :=
  match m !! key with
  | Some actual => ((actual, true), m)
  | None => ((value, false), <[key := value]> m)
  end.

(** [m.LoadAndDelete(key)] returns [(value, loaded)]; [value] is nil when
    nothing was loaded. *)
Definition LoadAndDelete (key : string) (m : gmap string chan)
  : (option chan * bool) * gmap string chan :=
  match m !! key with
  | Some value => ((Some value, true), delete key m)
  | None => ((None, false), m)
  end.

End syncMap.

(** ** fsnotify *)

Module fsnotify.

(** The operation flags of [fsnotify.Op] (a [uint32]). *)
Definition Create : uint32 := 1.
Definition Write : uint32 := 2.
Definition Remove : uint32 := 4.
Definition Rename : uint32 := 8.
Definition Chmod : uint32 := 16.

Record Event : Type := mkEvent {
  Name : string;
  Op : uint32
}.

(** A watcher, as far as the notifier observes it: the events sitting in
    its [Events] channel, whether that channel has been closed, the
    directories added to it, and how many times [Close] was called. *)
Record Watcher : Type := mkWatcher {
  Events : list Event;
  EventsClosed : bool;
  Watches : list string;
  CloseCalls : nat
}.

(** What the operating system answers: whether a watcher can be created,
    and whether a directory can be watched. *)
Record OS : Type := mkOS {
  newWatcherErr : option error;
  addErr : string -> option error
}.

Definition NewWatcher (os : OS) : option Watcher * option error :=
  match newWatcherErr os with
  | Some err => (None, Some err)
  | None => (Some (mkWatcher [] false [] 0), None)
  end.

Definition Add (os : OS) (name : string) (w : Watcher)
  : option error * Watcher :=
  match addErr os name with
  | Some err => (Some err, w)
  | None =>
      (None, mkWatcher (Events w) (EventsClosed w) (name :: Watches w)
               (CloseCalls w))
  end.

(** [w.Close()]: counted; the [Events] channel is closed afterwards. *)
Definition Close (w : Watcher) : Watcher :=
  mkWatcher (Events w) true (Watches w) (S (CloseCalls w)).

(** The kernel queues an event / the owner ends the stream. *)
Definition deliver (e : Event) (w : Watcher) : Watcher :=
  mkWatcher (Events w ++ [e]) (EventsClosed w) (Watches w) (CloseCalls w).

Definition endStream (w : Watcher) : Watcher :=
  mkWatcher (Events w) true (Watches w) (CloseCalls w).

End fsnotify.

Import fsnotify.

(** ** The notifier *)

Record DirectoryNotifier : Type := mkDirectoryNotifier {
  watcher : Watcher;
  filesToNotifiers : gmap string chan;
  opsToWatch : list uint32;
  dir : string
}.

(** The goroutine started by [New]. *)
Inductive Task : Type :=
  | Running
  | Exited
  | Panicked.

#[global] Instance Task_eq_dec : EqDecision Task.
Proof. solve_decision. Defined.

(** The shared state: the notifier, the channels made so far, the goroutine,
    and the log of the [close] calls the goroutine has performed (latest
    first). *)
Record World : Type := mkWorld {
  notifier : DirectoryNotifier;
  chans : channel.heap;
  task : Task;
  closed : list chan
}.

Definition registry (w : World) : gmap string chan :=
  filesToNotifiers (notifier w).

Definition set_watcher (wt : Watcher) (w : World) : World :=
  let dn := notifier w in
  mkWorld (mkDirectoryNotifier wt (filesToNotifiers dn) (opsToWatch dn) (dir dn))
          (chans w) (task w) (closed w).

Definition set_filesToNotifiers (m : gmap string chan) (w : World) : World :=
  let dn := notifier w in
  mkWorld (mkDirectoryNotifier (watcher dn) m (opsToWatch dn) (dir dn))
          (chans w) (task w) (closed w).

Definition set_chans (h : channel.heap) (w : World) : World :=
  mkWorld (notifier w) h (task w) (closed w).

Definition set_task (t : Task) (w : World) : World :=
  mkWorld (notifier w) (chans w) t (closed w).

Definition log_close (c : chan) (w : World) : World :=
  mkWorld (notifier w) (chans w) (task w) (c :: closed w).

(** *** New *)

(** [New(dir, opsToWatch...)].  The first component is what the caller gets;
    the second is the world the call leaves behind ([None] when no notifier
    was built and no goroutine started). *)
Definition New (os : OS) (dir : string) (opsToWatch : list uint32)
  : (option DirectoryNotifier * option error) * option World :=
  match NewWatcher os with
  | (_, Some err) => ((None, Some err), None)
  | (Some watcher, None) =>
      let dn := mkDirectoryNotifier watcher ∅ opsToWatch dir in
      (* go dn.initializeWatcher() *)
      let w := mkWorld dn [] Running [] in
      match Add os dir watcher with
      | (Some err, _) => ((None, Some err), Some w)
      | (None, watcher') =>
          let w' := set_watcher watcher' w in
          ((Some (notifier w'), None), Some w')
      end
  | (None, None) =>
      (* [NewWatcher] returns a watcher or an error *)
      ((None, None), None)
  end.

(** *** initializeWatcher *)

(** The test of the inner loop, [event.Op&fsnotify.Op(op) == fsnotify.Op(op)],
    where [op] is the variable of [for op := range dn.opsToWatch]. *)
Definition opTest (event : Event) (op : nat) : bool :=
  Z.land (Op event) (to_uint32 (Z.of_nat op)) =? to_uint32 (Z.of_nat op).

(** The inner loop over the values [op] that the [range] clause yields.
    [None] is a panic of [close]. *)
Fixpoint rangeOps (ops : list nat) (event : Event) (w : World) : option World :=
  match ops with
  | [] => Some w
  | op :: rest =>
      if opTest event op then
        match syncMap.LoadAndDelete (Name event) (registry w) with
        | ((Some notifyChan, true), m) =>
            match channel.close notifyChan (chans w) with
            | Some h =>
                (* break *)
                Some (log_close notifyChan (set_chans h (set_filesToNotifiers m w)))
            | None => None
            end
        | _ => rangeOps rest event w
        end
      else rangeOps rest event w
  end.

(** [for op := range dn.opsToWatch] with a single iteration variable yields
    the indices [0 .. len-1] of the slice. *)
Definition rangeIndices (w : World) : list nat :=
  seq 0 (length (opsToWatch (notifier w))).

(** The body of the outer loop for one received event. *)
Definition handleEvent (event : Event) (w : World) : option World :=
  rangeOps (rangeIndices w) event w.

(** One transition of the goroutine: receive and handle the next event; or
    leave the loop when the channel is closed and drained, which runs the
    deferred [dn.watcher.Close()]; or stay blocked ([None]).  A panic of
    [close] comes after [LoadAndDelete] has removed the entry; it runs the
    deferred call too and, not being recovered, ends the program. *)
Definition initializeWatcher_step (w : World) : option World :=
  match task w with
  | Running =>
      let wt := watcher (notifier w) in
      match Events wt with
      | event :: rest =>
          let w1 :=
            set_watcher (mkWatcher rest (EventsClosed wt) (Watches wt)
                           (CloseCalls wt)) w in
          match handleEvent event w1 with
          | Some w2 => Some w2
          | None =>
              Some (set_task Panicked
                      (set_watcher (Close (watcher (notifier w1)))
                         (set_filesToNotifiers
                            (delete (Name event) (registry w1)) w1)))
          end
      | [] =>
          if EventsClosed wt
          then Some (set_task Exited (set_watcher (Close wt) w))
          else None
      end
  | _ => None
  end.

(** The goroutine run for at most [fuel] transitions. *)
Fixpoint initializeWatcher (fuel : nat) (w : World) : World :=
  match fuel with
  | O => w
  | S fuel' =>
      match initializeWatcher_step w with
      | Some w' => initializeWatcher fuel' w'
      | None => w
      end
  end.

(** *** NotifierForFile and Directory *)

(** [errors.Errorf("exec watcher already watching file %s", file)]. *)
Definition alreadyWatching (file : string) : error :=
  Errorf ("exec watcher already watching file " +:+ file).

Definition NotifierForFile (file : string) (w : World)
  : (option chan * option error) * World :=
  let '(c, h) := channel.make (chans w) in
  let w1 := set_chans h w in
  match syncMap.LoadOrStore file c (registry w1) with
  | ((_, true), _) =>
      ((None, Some (alreadyWatching file)), w1)
  | ((_, false), m) => ((Some c, None), set_filesToNotifiers m w1)
  end.

Definition Directory (w : World) : string := dir (notifier w).

(** *** The environment *)

(** The kernel reports an event; the owner of the watcher ends the stream. *)
Definition deliverEvent (e : Event) (w : World) : World :=
  set_watcher (deliver e (watcher (notifier w))) w.

Definition closeStream (w : World) : World :=
  set_watcher (endStream (watcher (notifier w))) w.

(** The world in which the goroutine handles the event it has just taken
    from the head of the queue. *)
Definition received (w : World) : World :=
  let wt := watcher (notifier w) in
  set_watcher
    (mkWatcher (tail (Events wt)) (EventsClosed wt) (Watches wt)
       (CloseCalls wt)) w.

(** ** The matching policy in the words of the specification *)

(** An event matches when, for some configured operation, its bitmask
    intersected with that operation equals that operation. *)
Definition specMatches (ops : list uint32) (event : Event) : bool :=
  existsb (fun o => Z.land (Op event) o =? o) ops.

(** What the loop tests instead: the same with the indices of the slice. *)
Definition codeMatches (ops : list uint32) (event : Event) : bool :=
  existsb (opTest event) (seq 0 (length ops)).

(** ** Executions *)

(** The transitions of the system: a caller registers, the goroutine takes a
    step, the kernel queues an event on the open stream, the stream ends. *)
Inductive transition : World -> World -> Prop :=
  | t_register file w :
      transition w (NotifierForFile file w).2
  | t_dispatch w w' :
      initializeWatcher_step w = Some w' -> transition w w'
  | t_deliver e w :
      EventsClosed (watcher (notifier w)) = false ->
      transition w (deliverEvent e w)
  | t_endStream w :
      transition w (closeStream w).

(** The worlds that an execution started by a call of [New] goes through. *)
Inductive reachable : World -> Prop :=
  | r_New os d ops r w :
      New os d ops = (r, Some w) -> reachable w
  | r_transition w w' :
      reachable w -> transition w w' -> reachable w'.

(** The invariant of the registry: every registered handle is an open
    channel, no two paths share a handle, and the channels the goroutine has
    closed are closed. *)
Record wf (w : World) : Prop := mkWf {
  wf_open : forall P c, registry w !! P = Some c -> chans w !! c = Some false;
  wf_inj : forall P Q c,
      registry w !! P = Some c -> registry w !! Q = Some c -> P = Q;
  wf_closed : forall c, c ∈ closed w -> chans w !! c = Some true
}.

(** The world after the goroutine has resolved the entry [P |-> c]. *)
Definition resolved (P : string) (c : chan) (w : World) : World :=
  log_close c
    (set_chans (<[c := true]> (chans w))
       (set_filesToNotifiers (delete P (registry w)) w)).

(** A pending handle: registered, open, and never closed by the goroutine. *)
Definition pending (P : string) (c : chan) (w : World) : Prop :=
  registry w !! P = Some c /\ chans w !! c = Some false /\ c ∉ closed w.

(** ** Sequences of calls *)

(** The calls [NotifierForFile(f)] for the [files], one after the other,
    with what each of them returns. *)
Fixpoint registerAll (files : list string) (w : World)
  : list (option chan * option error) * World :=
  match files with
  | [] => ([], w)
  | f :: rest =>
      let '(r, w1) := NotifierForFile f w in
      let '(rs, w2) := registerAll rest w1 in
      (r :: rs, w2)
  end.

(** Whether one of the events is for the path [P] and passes the test of
    the loop. *)
Definition hits (ops : list uint32) (es : list Event) (P : string) : bool :=
  existsb (fun e => bool_decide (Name e = P) && codeMatches ops e) es.

(** * The command-line client (package [main] of [cmd/client]) *)

Module client.

(** Go's [error] values in the client: the ones that come from outside (the
    gRPC connection, the runtime service, the configuration loader) and the
    ones built with [fmt.Errorf].  [Error] is the message, which is what the
    verb [%v] prints. *)
Inductive error : Type :=
  | External (msg : string)
  | Errorf (msg : string).

Definition Error (err : error) : string :=
  match err with
  | External msg => msg
  | Errorf msg => msg
  end.

Definition newline : string := String "010"%char EmptyString.
Definition tab : string := String "009"%char EmptyString.

(** [strings.Split(s, sep)] for a separator [sep] of one byte: the pieces of
    [s] between the occurrences of [sep]. *)
Fixpoint Split (s : string) (sep : ascii) : list string :=
  match s with
  | EmptyString => [EmptyString]
  | String a s' =>
      if Ascii.eqb a sep then EmptyString :: Split s' sep
      else
        match Split s' sep with
        | x :: xs => String a x :: xs
        | [] => [String a EmptyString]
        end
  end.

(** [strings.Count(s, sep)] for a separator of one byte. *)
Fixpoint Count (s : string) (sep : ascii) : nat :=
  match s with
  | EmptyString => 0%nat
  | String a s' => ((if Ascii.eqb a sep then 1 else 0) + Count s' sep)%nat
  end.

(** The loop over [context.StringSlice("label")] in the actions of [create]
    and [list]: each label is split at ["="] and stored in [opts.labels];
    a label that does not split in two ends the action with an error. *)
Fixpoint parseLabels (ls : list string) (labels : gmap string string)
  : gmap string string + error :=
  match ls with
  | [] => inl labels
  | l :: rest =>
      match Split l "="%char with
      | [k; v] => parseLabels rest (<[k := v]> labels)
      | _ => inr (Errorf ("incorrectly specified label: " +:+ l))
      end
  end.

(** ** The messages of the runtime API (generated code, proto2: optional
    fields are pointers, [None] is nil) *)

Module pb.

Inductive ContainerState : Type :=
  | ContainerState_CONTAINER_CREATED
  | ContainerState_CONTAINER_RUNNING
  | ContainerState_CONTAINER_EXITED
  | ContainerState_CONTAINER_UNKNOWN.

Module ContainerMetadata.
Record t : Type := mk {
  Name : option string;
  Attempt : option Z
}.
End ContainerMetadata.

(** [Rest] stands for the fields that the client never touches. *)
Module ContainerConfig.
Record t : Type := mk {
  Metadata : option ContainerMetadata.t;
  Labels : option (gmap string string);
  Rest : string
}.
End ContainerConfig.

Module ContainerFilter.
Record t : Type := mk {
  Id : option string;
  State : option ContainerState;
  PodSandboxId : option string;
  LabelSelector : option (gmap string string)
}.
End ContainerFilter.

Module Container.
Record t : Type := mk {
  Id : option string;
  PodSandboxId : option string;
  Metadata : option ContainerMetadata.t;
  State : option ContainerState;
  CreatedAt : option Z;
  Labels : option (gmap string string);
  Annotations : option (gmap string string)
}.
End Container.

Module ContainerStatus.
Record t : Type := mk {
  Id : option string;
  Metadata : option ContainerMetadata.t;
  State : option ContainerState;
  CreatedAt : option Z;
  StartedAt : option Z;
  FinishedAt : option Z;
  ExitCode : option Z
}.
End ContainerStatus.

Module ContainerStatusResponse.
Record t : Type := mk {
  Status : option ContainerStatus.t
}.
End ContainerStatusResponse.

Module ExecSyncResponse.
Record t : Type := mk {
  Stdout : string;
  Stderr : string;
  ExitCode : option Z
}.
End ExecSyncResponse.

Module CreateContainerResponse.
Record t : Type := mk {
  ContainerId : option string
}.
End CreateContainerResponse.

(** The requests, with the fields the client fills in. *)
Inductive Request : Type :=
  | CreateContainerRequest (PodSandboxId : string) (Config : ContainerConfig.t)
  | StartContainerRequest (ContainerId : string)
  | StopContainerRequest (ContainerId : string)
  | RemoveContainerRequest (ContainerId : string)
  | ContainerStatusRequest (ContainerId : string)
  | ExecSyncRequest (ContainerId : string) (Cmd : list string) (Timeout : Z)
  | ListContainersRequest (Filter : ContainerFilter.t).

(** A [RuntimeServiceClient]: what the service answers to each request. *)
Module RuntimeServiceClient.
Record t : Type := mk {
  CreateContainer :
    string -> ContainerConfig.t -> CreateContainerResponse.t + error;
  StartContainer : string -> option error;
  StopContainer : string -> option error;
  RemoveContainer : string -> option error;
  ContainerStatus : string -> ContainerStatusResponse.t + error;
  ExecSync : string -> list string -> Z -> ExecSyncResponse.t + error;
  ListContainers : ContainerFilter.t -> list Container.t + error
}.
End RuntimeServiceClient.

End pb.

(** ** Effects *)

(** What a run of the client does to the outside: the requests it sends, the
    writes to standard output, and the calls of [conn.Close()]. *)
Record Console : Type := mkConsole {
  requests : list pb.Request;
  stdout : list string;
  connCloses : nat
}.

(** A computation returns, panics, or ends the process through
    [log.Fatalf]. *)
Inductive Result (A : Type) : Type :=
  | Done (a : A)
  | Panic
  | Fatal (msg : string).

Arguments Done {A} a.
Arguments Panic {A}.
Arguments Fatal {A} msg.

Definition M (A : Type) : Type := Console -> Result A * Console.

Definition ret {A} (a : A) : M A := fun c => (Done a, c).

Definition bind {A B} (m : M A) (k : A -> M B) : M B :=
  fun c =>
    match m c with
    | (Done a, c') => k a c'
    | (Panic, c') => (Panic, c')
    | (Fatal msg, c') => (Fatal msg, c')
    end.

Definition panic {A} : M A := fun c => (Panic, c).

Definition Fatalf {A} (msg : string) : M A := fun c => (Fatal msg, c).

(** [*p]: a nil pointer dereference panics. *)
Definition deref {A} (p : option A) : M A :=
  match p with
  | Some a => ret a
  | None => panic
  end.

Definition Print (s : string) : M unit :=
  fun c => (Done tt, mkConsole (requests c) (stdout c ++ [s]) (connCloses c)).

Definition Println (s : string) : M unit := Print (s +:+ newline).

Definition send (req : pb.Request) : M unit :=
  fun c => (Done tt, mkConsole (requests c ++ [req]) (stdout c) (connCloses c)).

Definition connClose (c : Console) : Console :=
  mkConsole (requests c) (stdout c) (S (connCloses c)).

(** [defer conn.Close()]: runs when the function returns and when it panics,
    not when the process exits. *)
Definition deferClose {A} (m : M A) : M A :=
  fun c =>
    match m c with
    | (Done a, c') => (Done a, connClose c')
    | (Panic, c') => (Panic, connClose c')
    | (Fatal msg, c') => (Fatal msg, c')
    end.

Definition start : Console := mkConsole [] [] 0.

#[local] Notation "'let*' x := m 'in' k" := (bind m (fun x => k))
  (at level 10, x name, m at level 99, k at level 200).
#[local] Notation "m >> k" := (bind m (fun _ => k))
  (at level 100, k at level 200, right associativity).

Fixpoint forEach {A} (l : list A) (body : A -> M unit) : M unit :=
  match l with
  | [] => ret tt
  | a :: rest => body a >> forEach rest body
  end.

(** ** What the libraries and the other files of the package provide *)

Module cli.
(** A [cli.Context], as far as the actions read it: the flags. *)
Record Context : Type := mk {
  IsSet : string -> bool;
  String : string -> string;
  StringSlice : string -> list string;
  Bool : string -> bool;
  Int64 : string -> Z;
  Args : list string
}.
End cli.

(** [getClientConnection] (with [pb.NewRuntimeServiceClient] applied to the
    connection), [loadContainerConfig] and [getSortedKeys] are in other
    files of the package; [formatTime] is what [%v] prints for
    [time.Unix(0, t)], and [stateString] the [String] method of
    [pb.ContainerState]. *)
Record Platform : Type := mkPlatform {
  getClientConnection : cli.Context -> pb.RuntimeServiceClient.t + error;
  loadContainerConfig : string -> pb.ContainerConfig.t + error;
  getSortedKeys : gmap string string -> list string;
  formatTime : Z -> string;
  stateString : pb.ContainerState -> string
}.

(** ** The options *)

Module createOptions.
Record t : Type := mk {
  configPath : string;
  name : string;
  podID : string;
  labels : option (gmap string string)
}.
End createOptions.

Module listOptions.
Record t : Type := mk {
  id : string;
  podID : string;
  state : string;
  quiet : bool;
  labels : option (gmap string string)
}.
End listOptions.

(** ** CreateContainer *)

(** The pairs that [for k, v := range m] goes through (in an order that Go
    does not fix; a nil map has none). *)
Definition rangeMap (m : option (gmap string string))
  : list (string * string) :=
  match m with
  | Some m => map_to_list m
  | None => []
  end.

(** [for k, v := range opts.labels { config.Labels[k] = v }]: assigning to
    an entry of a nil map panics. *)
Fixpoint assignLabels (kvs : list (string * string))
    (Labels : option (gmap string string))
  : M (option (gmap string string)) :=
  match kvs with
  | [] => ret Labels
  | (k, v) :: rest =>
      match Labels with
      | Some m => assignLabels rest (Some (<[k := v]> m))
      | None => panic
      end
  end.

(** [if opts.name != "" { config.Metadata.Name = &opts.name }]. *)
Definition overrideName (name : string)
    (Metadata : option pb.ContainerMetadata.t)
  : M (option pb.ContainerMetadata.t) :=
  if decide (name = "") then ret Metadata
  else
    match Metadata with
    | Some md =>
        ret (Some (pb.ContainerMetadata.mk (Some name)
                     (pb.ContainerMetadata.Attempt md)))
    | None => panic
    end.

Definition CreateContainer (plat : Platform)
    (client : pb.RuntimeServiceClient.t) (opts : createOptions.t)
  : M (option error) :=
  match loadContainerConfig plat (createOptions.configPath opts) with
  | inr err => ret (Some err)
  | inl config =>
      let* md := overrideName (createOptions.name opts)
              (pb.ContainerConfig.Metadata config) in
      let* ls := assignLabels (rangeMap (createOptions.labels opts))
              (pb.ContainerConfig.Labels config) in
      let config' :=
        pb.ContainerConfig.mk md ls (pb.ContainerConfig.Rest config) in
      send (pb.CreateContainerRequest (createOptions.podID opts) config') >>
      match pb.RuntimeServiceClient.CreateContainer client
              (createOptions.podID opts) config' with
      | inr err => ret (Some err)
      | inl r =>
          let* cid := deref (pb.CreateContainerResponse.ContainerId r) in
          Println cid >>
          ret None
      end
  end.

(** ** StartContainer, StopContainer, RemoveContainer *)

Definition StartContainer (client : pb.RuntimeServiceClient.t) (ID : string)
  : M (option error) :=
  if decide (ID = "") then ret (Some (Errorf "ID cannot be empty"))
  else
    send (pb.StartContainerRequest ID) >>
    match pb.RuntimeServiceClient.StartContainer client ID with
    | Some err => ret (Some err)
    | None => Println ID >> ret None
    end.

Definition StopContainer (client : pb.RuntimeServiceClient.t) (ID : string)
  : M (option error) :=
  if decide (ID = "") then ret (Some (Errorf "ID cannot be empty"))
  else
    send (pb.StopContainerRequest ID) >>
    match pb.RuntimeServiceClient.StopContainer client ID with
    | Some err => ret (Some err)
    | None => Println ID >> ret None
    end.

Definition RemoveContainer (client : pb.RuntimeServiceClient.t) (ID : string)
  : M (option error) :=
  if decide (ID = "") then ret (Some (Errorf "ID cannot be empty"))
  else
    send (pb.RemoveContainerRequest ID) >>
    match pb.RuntimeServiceClient.RemoveContainer client ID with
    | Some err => ret (Some err)
    | None => Println ID >> ret None
    end.

(** ** ContainerStatus *)

(** [if p != nil { fmt.Printf(..., *p) }]. *)
Definition printWhen {A} (p : option A) (line : A -> string) : M unit :=
  match p with
  | Some a => Print (line a)
  | None => ret tt
  end.

Definition ContainerStatus (plat : Platform)
    (client : pb.RuntimeServiceClient.t) (ID : string)
  : M (option error) :=
  if decide (ID = "") then ret (Some (Errorf "ID cannot be empty"))
  else
    send (pb.ContainerStatusRequest ID) >>
    match pb.RuntimeServiceClient.ContainerStatus client ID with
    | inr err => ret (Some err)
    | inl r =>
        let* status := deref (pb.ContainerStatusResponse.Status r) in
        let* cid := deref (pb.ContainerStatus.Id status) in
        Print ("ID: " +:+ cid +:+ newline) >>
        match pb.ContainerStatus.Metadata status with
        | Some md =>
            printWhen (pb.ContainerMetadata.Name md)
              (fun n => "Name: " +:+ n +:+ newline) >>
            printWhen (pb.ContainerMetadata.Attempt md)
              (fun a => "Attempt: " +:+ pretty a +:+ newline)
        | None => ret tt
        end >>
        printWhen (pb.ContainerStatus.State status)
          (fun st => "Status: " +:+ stateString plat st +:+ newline) >>
        printWhen (pb.ContainerStatus.CreatedAt status)
          (fun t => "Created: " +:+ formatTime plat t +:+ newline) >>
        printWhen (pb.ContainerStatus.StartedAt status)
          (fun t => "Started: " +:+ formatTime plat t +:+ newline) >>
        printWhen (pb.ContainerStatus.FinishedAt status)
          (fun t => "Finished: " +:+ formatTime plat t +:+ newline) >>
        printWhen (pb.ContainerStatus.ExitCode status)
          (fun code => "Exit Code: " +:+ pretty code +:+ newline) >>
        ret None
    end.

(** ** ExecSync *)

Definition ExecSync (client : pb.RuntimeServiceClient.t) (ID : string)
    (cmd : list string) (timeout : Z)
  : M (option error) :=
  if decide (ID = "") then ret (Some (Errorf "ID cannot be empty"))
  else
    send (pb.ExecSyncRequest ID cmd timeout) >>
    match pb.RuntimeServiceClient.ExecSync client ID cmd timeout with
    | inr err => ret (Some err)
    | inl r =>
        Println "Stdout:" >>
        Println (pb.ExecSyncResponse.Stdout r) >>
        Println "Stderr:" >>
        Println (pb.ExecSyncResponse.Stderr r) >>
        let* code := deref (pb.ExecSyncResponse.ExitCode r) in
        Print ("Exit code: " +:+ pretty code +:+ newline) >>
        ret None
    end.

(** ** ListContainers *)

(** The [switch opts.state]. *)
Definition stateFilter (state : string) : M (option pb.ContainerState) :=
  if decide (state = "") then ret None
  else if decide (state = "created")
  then ret (Some pb.ContainerState_CONTAINER_CREATED)
  else if decide (state = "running")
  then ret (Some pb.ContainerState_CONTAINER_RUNNING)
  else if decide (state = "stopped")
  then ret (Some pb.ContainerState_CONTAINER_EXITED)
  else Fatalf "--state should be one of created, running or stopped".

Definition nonEmpty (s : string) : option string :=
  if decide (s = "") then None else Some s.

(** [if m != nil { fmt.Println(title); for _, k := range getSortedKeys(m)
    { fmt.Printf("\t%s -> %s\n", k, m[k]) } }]. *)
Definition printMap (plat : Platform) (title : string)
    (m : option (gmap string string)) : M unit :=
  match m with
  | None => ret tt
  | Some m =>
      Println title >>
      forEach (getSortedKeys plat m)
        (fun k => Print (tab +:+ k +:+ " -> " +:+ default "" (m !! k)
                         +:+ newline))
  end.

(** The body of the loop over the containers of the response. *)
Definition printContainer (plat : Platform) (quiet : bool)
    (c : pb.Container.t) : M unit :=
  if quiet then let* cid := deref (pb.Container.Id c) in Println cid
  else
    let* cid := deref (pb.Container.Id c) in
    Print ("ID: " +:+ cid +:+ newline) >>
    let* pod := deref (pb.Container.PodSandboxId c) in
    Print ("Pod: " +:+ pod +:+ newline) >>
    match pb.Container.Metadata c with
    | Some md =>
        printWhen (pb.ContainerMetadata.Name md)
          (fun n => "Name: " +:+ n +:+ newline) >>
        printWhen (pb.ContainerMetadata.Attempt md)
          (fun a => "Attempt: " +:+ pretty a +:+ newline)
    | None => ret tt
    end >>
    printWhen (pb.Container.State c)
      (fun st => "Status: " +:+ stateString plat st +:+ newline) >>
    printWhen (pb.Container.CreatedAt c)
      (fun t => "Created: " +:+ formatTime plat t +:+ newline) >>
    printMap plat "Labels:" (pb.Container.Labels c) >>
    printMap plat "Annotations:" (pb.Container.Annotations c) >>
    Println "".

Definition ListContainers (plat : Platform)
    (client : pb.RuntimeServiceClient.t) (opts : listOptions.t)
  : M (option error) :=
  let* st := stateFilter (listOptions.state opts) in
  let filter :=
    pb.ContainerFilter.mk (nonEmpty (listOptions.id opts)) st
      (nonEmpty (listOptions.podID opts)) (listOptions.labels opts) in
  send (pb.ListContainersRequest filter) >>
  match pb.RuntimeServiceClient.ListContainers client filter with
  | inr err => ret (Some err)
  | inl containers =>
      forEach containers (printContainer plat (listOptions.quiet opts)) >>
      ret None
  end.

(** ** The actions of the commands *)

(** [fmt.Errorf(prefix + "%v", err)] when [err != nil]. *)
Definition wrap (prefix : string) (err : option error) : option error :=
  match err with
  | Some e => Some (Errorf (prefix +:+ Error e))
  | None => None
  end.

(** The opening of every action: connect, and close the connection at the
    end. *)
Definition withClient (plat : Platform) (context : cli.Context)
    (body : pb.RuntimeServiceClient.t -> M (option error))
  : M (option error) :=
  match getClientConnection plat context with
  | inr err => ret (Some (Errorf ("failed to connect: " +:+ Error err)))
  | inl client => deferClose (body client)
  end.

Definition createAction (plat : Platform) (context : cli.Context)
  : M (option error) :=
  withClient plat context (fun client =>
    if negb (cli.IsSet context "pod")
    then ret (Some (Errorf "Please specify the id of the pod sandbox to which the container belongs via the --pod option"))
    else
      match parseLabels (cli.StringSlice context "label") ∅ with
      | inr err => ret (Some err)
      | inl labels =>
          let opts :=
            createOptions.mk (cli.String context "config")
              (cli.String context "name") (cli.String context "pod")
              (Some labels) in
          let* err := CreateContainer plat client opts in
          ret (wrap "Creating container failed: " err)
      end).

Definition startAction (plat : Platform) (context : cli.Context)
  : M (option error) :=
  withClient plat context (fun client =>
    let* err := StartContainer client (cli.String context "id") in
    ret (wrap "Starting the container failed: " err)).

Definition stopAction (plat : Platform) (context : cli.Context)
  : M (option error) :=
  withClient plat context (fun client =>
    let* err := StopContainer client (cli.String context "id") in
    ret (wrap "Stopping the container failed: " err)).

Definition removeAction (plat : Platform) (context : cli.Context)
  : M (option error) :=
  withClient plat context (fun client =>
    let* err := RemoveContainer client (cli.String context "id") in
    ret (wrap "Removing the container failed: " err)).

Definition statusAction (plat : Platform) (context : cli.Context)
  : M (option error) :=
  withClient plat context (fun client =>
    let* err := ContainerStatus plat client (cli.String context "id") in
    ret (wrap "Getting the status of the container failed: " err)).

Definition execSyncAction (plat : Platform) (context : cli.Context)
  : M (option error) :=
  withClient plat context (fun client =>
    let* err := ExecSync client (cli.String context "id") (cli.Args context)
                  (cli.Int64 context "timeout") in
    ret (wrap "execing command in container failed: " err)).

Definition listAction (plat : Platform) (context : cli.Context)
  : M (option error) :=
  withClient plat context (fun client =>
    match parseLabels (cli.StringSlice context "label") ∅ with
    | inr err => ret (Some err)
    | inl labels =>
        let opts :=
          listOptions.mk (cli.String context "id")
            (cli.String context "pod") (cli.String context "state")
            (cli.Bool context "quiet") (Some labels) in
        let* err := ListContainers plat client opts in
        ret (wrap "listing containers failed: " err)
    end).

End client.

(** A label in the form that the loop of the actions accepts, and the label
    that gives a key its value. *)
Definition wellFormed (l : string) : Prop :=
  client.Count l "="%char = 1%nat.

Definition label (kv : string * string) : string :=
  kv.1 +:+ String "="%char kv.2.

Definition noEquals (kv : string * string) : Prop :=
  client.Count kv.1 "="%char = 0%nat /\ client.Count kv.2 "="%char = 0%nat.

(** A computation that only prints: it sends nothing, leaves the connection
    alone and does not end the process. *)
Definition printsOnly {A} (m : client.M A) : Prop :=
  forall c, exists out,
    (m c).2
    = client.mkConsole (client.requests c) (client.stdout c ++ out)
        (client.connCloses c) /\
    forall msg, (m c).1 <> client.Fatal msg.

(** An operation of the client that sends at most one request, prints only
    after a request, prints nothing when it returns an error, and leaves the
    connection alone. *)
Definition atMostOneRequest (m : client.M (option client.error)) : Prop :=
  forall c, exists reqs out,
    (m c).2
    = client.mkConsole (client.requests c ++ reqs) (client.stdout c ++ out)
        (client.connCloses c) /\
    (length reqs <= 1)%nat /\
    (reqs = [] -> out = []) /\
    (forall err, (m c).1 = client.Done (Some err) -> out = []).

(** The values of [--state] that [ListContainers] accepts, with the filter
    each one stands for. *)
Definition states : list (string * option client.pb.ContainerState) :=
  [(""%string, None);
   ("created"%string, Some client.pb.ContainerState_CONTAINER_CREATED);
   ("running"%string, Some client.pb.ContainerState_CONTAINER_RUNNING);
   ("stopped"%string, Some client.pb.ContainerState_CONTAINER_EXITED)].

(** How many times an action that got the connection [conn] and ended with
    [r] must have closed it. *)
Definition closesDue {A B C} (conn : A + B) (r : client.Result C) : nat :=
  match conn, r with
  | inl _, client.Done _ => 1
  | inl _, client.Panic => 1
  | _, _ => 0
  end%nat.

(** The actions of the commands, by name. *)
Definition actions
  : list (string * (client.Platform -> client.cli.Context ->
                    client.M (option client.error))) :=
  [("create"%string, client.createAction);
   ("start"%string, client.startAction);
   ("stop"%string, client.stopAction);
   ("remove"%string, client.removeAction);
   ("status"%string, client.statusAction);
   ("execsync"%string, client.execSyncAction);
   ("list"%string, client.listAction)].

(** The container a request is about, for the requests that name one. *)
Definition containerOf (req : client.pb.Request) : option string :=
  match req with
  | client.pb.StartContainerRequest ID => Some ID
  | client.pb.StopContainerRequest ID => Some ID
  | client.pb.RemoveContainerRequest ID => Some ID
  | client.pb.ContainerStatusRequest ID => Some ID
  | client.pb.ExecSyncRequest ID _ _ => Some ID
  | _ => None
  end.

(** ** A run of the client, used to instantiate the theorems below *)

Module ClientExample.

Import client.

(** A configuration file with metadata and two labels. *)
Definition config : pb.ContainerConfig.t :=
  pb.ContainerConfig.mk
    (Some (pb.ContainerMetadata.mk (Some "fromfile"%string) (Some 0)))
    (Some {[ "tier"%string := "db"%string; "env"%string := "dev"%string ]})
    "image: redis".

(** A configuration file without metadata and labels. *)
Definition bare : pb.ContainerConfig.t :=
  pb.ContainerConfig.mk None None "image: redis".

Definition container (cid : string) : pb.Container.t :=
  pb.Container.mk (Some cid) (Some "pod1"%string) None
    (Some pb.ContainerState_CONTAINER_RUNNING) None None None.

(** A service that accepts everything and lists two containers. *)
Definition rpc : pb.RuntimeServiceClient.t :=
  pb.RuntimeServiceClient.mk
    (fun _ _ => inl (pb.CreateContainerResponse.mk (Some "c3"%string)))
    (fun _ => None) (fun _ => None) (fun _ => None)
    (fun cid =>
       inl (pb.ContainerStatusResponse.mk
              (Some (pb.ContainerStatus.mk (Some cid) None
                       (Some pb.ContainerState_CONTAINER_RUNNING) None None
                       None None))))
    (fun _ _ _ => inl (pb.ExecSyncResponse.mk "out" "" (Some 0)))
    (fun _ => inl [container "c1"; container "c2"]).

Definition plat : Platform :=
  mkPlatform
    (fun _ => inl rpc)
    (fun path =>
       if decide (path = "config.json"%string) then inl config
       else if decide (path = "bare.json"%string) then inl bare
       else inr (External "no such file or directory"))
    (fun m => merge_sort String.le (map_to_list m).*1)
    (fun t => pretty t)
    (fun st =>
       match st with
       | pb.ContainerState_CONTAINER_CREATED => "CONTAINER_CREATED"
       | pb.ContainerState_CONTAINER_RUNNING => "CONTAINER_RUNNING"
       | pb.ContainerState_CONTAINER_EXITED => "CONTAINER_EXITED"
       | pb.ContainerState_CONTAINER_UNKNOWN => "CONTAINER_UNKNOWN"
       end%string).

(** [create --pod pod1 --name web --label env=prod]. *)
Definition createOpts : createOptions.t :=
  createOptions.mk "config.json" "web" "pod1"
    (Some {[ "env"%string := "prod"%string ]}).

(** The same with a configuration that has neither metadata nor labels. *)
Definition createBare : createOptions.t :=
  createOptions.mk "bare.json" "web" "pod1"
    (Some {[ "env"%string := "prod"%string ]}).

(** The flags of a command line: [flags] gives the string flags that are
    set, [labels] the [--label] values. *)
Definition context (flags : list (string * string)) (labels : list string)
    (quiet : bool) : cli.Context :=
  cli.mk
    (fun f => bool_decide (f ∈ flags.*1))
    (fun f => default (if decide (f = "config"%string) then "config.json"
                       else "")%string
                (list_to_map (M := gmap string string) flags !! f))
    (fun f => if decide (f = "label"%string) then labels else [])
    (fun f => if decide (f = "quiet"%string) then quiet else false)
    (fun _ => 0)
    [].

(** [list --quiet --state running]. *)
Definition listQuiet : listOptions.t :=
  listOptions.mk "" "" "running" true (Some ∅).

(** [create --pod pod1 --label env=prod --label oops]. *)
Definition badLabels : cli.Context :=
  context [("pod", "pod1")]%string ["env=prod"; "oops"]%string false.

End ClientExample.

(** ** A concrete run, used to instantiate the theorems below *)

Module Example.

Definition osOk : OS := mkOS None (fun _ => None).

(** Every directory is reported missing. *)
Definition osNoDir : OS :=
  mkOS None (fun _ => Some (OSError "no such file or directory")).

Definition fileA : string := "/tmp/x/a.txt".
Definition fileB : string := "/tmp/x/b.txt".

(** [New("/tmp/x", Write, Remove)]. *)
Definition w0 : World :=
  mkWorld
    (mkDirectoryNotifier (mkWatcher [] false ["/tmp/x"%string] 0) ∅
       [Write; Remove] "/tmp/x")
    [] Running [].

(** ... then [NotifierForFile("/tmp/x/a.txt")] ... *)
Definition w1 : World := (NotifierForFile fileA w0).2.

(** ... then [NotifierForFile("/tmp/x/b.txt")]. *)
Definition w2 : World := (NotifierForFile fileB w1).2.

Definition writeA : Event := mkEvent fileA Write.
Definition createA : Event := mkEvent fileA Create.
Definition chmodA : Event := mkEvent fileA Chmod.

(** [New("/tmp/x", Write)] and then [NotifierForFile("/tmp/x/a.txt")]. *)
Definition v0 : World :=
  mkWorld
    (mkDirectoryNotifier (mkWatcher [] false ["/tmp/x"%string] 0) ∅
       [Write] "/tmp/x")
    [] Running [].

Definition v1 : World := (NotifierForFile fileA v0).2.

(** What a failed [New("/nonexistent", Write)] leaves behind. *)
Definition leaked : World :=
  mkWorld
    (mkDirectoryNotifier (mkWatcher [] false [] 0) ∅ [Write] "/nonexistent")
    [] Running [].

End Example.

(** ** Proof automation *)

Ltac world_simpl :=
  unfold resolved, deliverEvent, closeStream, log_close, set_chans,
    set_filesToNotifiers, received, set_watcher, set_task, rangeIndices,
    registry in *;
  cbn [notifier chans task closed watcher filesToNotifiers opsToWatch dir
       Events EventsClosed Watches CloseCalls deliver endStream Close] in *.

Ltac open_world w :=
  let es := fresh "es" in let ec := fresh "ec" in let ws := fresh "ws" in
  let cc := fresh "cc" in let m := fresh "m" in let ops := fresh "ops" in
  let d := fresh "d" in let h := fresh "h" in let t := fresh "t" in
  let cl := fresh "cl" in
  destruct w as [[[es ec ws cc] m ops d] h t cl]; world_simpl.

(** * Properties *)

(** ** The channel heap and the map *)

Section Heap.

Implicit Types (h : channel.heap) (c : chan).

Lemma make_fresh h : h !! (channel.make h).1 = None.
Proof. unfold channel.make. cbn [fst snd]. apply lookup_ge_None. lia. Qed.

Lemma make_open h : (channel.make h).2 !! (channel.make h).1 = Some false.
Proof.
  unfold channel.make. cbn [fst snd].
  rewrite lookup_app_r by lia. by rewrite Nat.sub_diag.
Qed.

Lemma make_old h c b : h !! c = Some b -> (channel.make h).2 !! c = Some b.
Proof. intros H. unfold channel.make. cbn [fst snd]. by apply lookup_app_l_Some. Qed.

Lemma close_open h c : h !! c = Some false -> channel.close c h = Some (<[c := true]> h).
Proof. intros H. unfold channel.close. by rewrite H. Qed.

Lemma close_Some h c h' :
  channel.close c h = Some h' -> h !! c = Some false /\ h' = <[c := true]> h.
Proof.
  unfold channel.close. destruct (h !! c) as [[|]|]; [done| |done].
  by intros [= <-].
Qed.

Lemma closed_lookup h c : h !! c = Some false -> <[c := true]> h !! c = Some true.
Proof. intros H. apply list_lookup_insert_eq. by eapply lookup_lt_Some. Qed.

End Heap.

(** ** The test of the loop *)

(** Index 0 converts to the empty bitmask, which every event contains. *)
Lemma opTest_0 event : opTest event 0 = true.
Proof. unfold opTest. simpl. rewrite Z.land_0_r. reflexivity. Qed.

Lemma codeMatches_nonempty ops event : codeMatches ops event = true <-> ops <> [].
Proof.
  unfold codeMatches. destruct ops as [|o ops]; simpl.
  - split; [discriminate|congruence].
  - rewrite opTest_0. simpl. split; [discriminate|reflexivity].
Qed.

Lemma specMatches_nonempty ops event : specMatches ops event = true -> ops <> [].
Proof. destruct ops; [discriminate|discriminate]. Qed.

Lemma specMatches_codeMatches ops event :
  specMatches ops event = true -> codeMatches ops event = true.
Proof. intros H. apply codeMatches_nonempty. by eapply specMatches_nonempty. Qed.

(** ** Handling one event *)

Section HandleEvent.

Implicit Types (w : World) (event : Event) (ops : list nat).

(** No entry for the path of the event: every iteration falls through. *)
Lemma rangeOps_absent ops event w :
  registry w !! Name event = None -> rangeOps ops event w = Some w.
Proof.
  intros Hreg. induction ops as [|op rest IH]; [done|].
  cbn [rangeOps]. unfold syncMap.LoadAndDelete. rewrite Hreg.
  by destruct (opTest event op).
Qed.

(** No value of the loop variable passes the test: nothing happens. *)
Lemma rangeOps_nomatch ops event w :
  existsb (opTest event) ops = false -> rangeOps ops event w = Some w.
Proof.
  induction ops as [|op rest IH]; [done|].
  cbn [existsb rangeOps]. intros [H1 H2]%orb_false_elim.
  rewrite H1. by apply IH.
Qed.

(** Some value passes the test and the path has an open handle: the entry
    is deleted, the handle closed, and the loop left. *)
Lemma rangeOps_resolve ops event w c :
  existsb (opTest event) ops = true ->
  registry w !! Name event = Some c ->
  chans w !! c = Some false ->
  rangeOps ops event w = Some (resolved (Name event) c w).
Proof.
  intros Hex Hreg Hopen. induction ops as [|op rest IH]; [done|].
  cbn [existsb rangeOps] in *. destruct (opTest event op).
  - unfold syncMap.LoadAndDelete. rewrite Hreg.
    by rewrite (close_open _ _ Hopen).
  - by apply IH.
Qed.

(** The two things the loop can do without a panic. *)
Lemma rangeOps_cases ops event w w' :
  rangeOps ops event w = Some w' ->
  w' = w \/
  exists c, existsb (opTest event) ops = true /\
            registry w !! Name event = Some c /\
            chans w !! c = Some false /\
            w' = resolved (Name event) c w.
Proof.
  induction ops as [|op rest IH]; cbn [rangeOps existsb].
  - intros [= <-]. by left.
  - destruct (opTest event op); [|exact IH].
    unfold syncMap.LoadAndDelete.
    destruct (registry w !! Name event) as [c|] eqn:Hreg.
    + destruct (channel.close c (chans w)) as [h'|] eqn:Hcl; [|done].
      apply close_Some in Hcl as [Hopen ->]. intros [= <-].
      right. by exists c.
    + intros H. apply IH in H as [->|(c & _ & ? & _)]; [by left|congruence].
Qed.

Lemma handleEvent_absent event w :
  registry w !! Name event = None -> handleEvent event w = Some w.
Proof. apply rangeOps_absent. Qed.

Lemma handleEvent_nomatch event w :
  codeMatches (opsToWatch (notifier w)) event = false ->
  handleEvent event w = Some w.
Proof. apply rangeOps_nomatch. Qed.

Lemma handleEvent_resolve event w c :
  opsToWatch (notifier w) <> [] ->
  registry w !! Name event = Some c ->
  chans w !! c = Some false ->
  handleEvent event w = Some (resolved (Name event) c w).
Proof.
  intros Hne%(codeMatches_nonempty _ event). by apply rangeOps_resolve.
Qed.

Lemma handleEvent_cases event w w' :
  handleEvent event w = Some w' ->
  w' = w \/
  exists c, registry w !! Name event = Some c /\
            chans w !! c = Some false /\
            w' = resolved (Name event) c w.
Proof.
  intros H. apply rangeOps_cases in H as [->|(c & _ & ? & ? & ?)];
    [by left|right; by exists c].
Qed.

End HandleEvent.

(** ** The invariant *)

Section Invariant.

Implicit Types (w : World) (P Q : string).

Lemma wf_set_watcher wt w : wf w -> wf (set_watcher wt w).
Proof. intros [H1 H2 H3]. by split. Qed.

Lemma wf_set_task t w : wf w -> wf (set_task t w).
Proof. intros [H1 H2 H3]. by split. Qed.

Lemma wf_delete P w :
  wf w -> wf (set_filesToNotifiers (delete P (registry w)) w).
Proof.
  intros [H1 H2 H3]. split; world_simpl; [| |done].
  - intros Q c [_ HQ]%lookup_delete_Some. by eapply H1.
  - intros Q1 Q2 c [_ HQ1]%lookup_delete_Some [_ HQ2]%lookup_delete_Some.
    by eapply H2.
Qed.

Lemma wf_pending w P c : wf w -> registry w !! P = Some c -> pending P c w.
Proof.
  intros [H1 _ H3] Hreg. split; [done|]. split; [by eapply H1|].
  intros Hin%H3. apply H1 in Hreg. congruence.
Qed.

Lemma wf_resolved w P c :
  wf w -> registry w !! P = Some c -> wf (resolved P c w).
Proof.
  intros [H1 H2 H3] Hreg. split; world_simpl.
  - intros Q c' [HQ Hc']%lookup_delete_Some.
    rewrite list_lookup_insert_ne; [by eapply H1|].
    intros <-. by apply HQ, (H2 P Q c).
  - intros Q1 Q2 c' [_ Hc1]%lookup_delete_Some [_ Hc2]%lookup_delete_Some.
    by eapply H2.
  - intros c' [->|Hin]%elem_of_cons.
    + apply closed_lookup. by eapply H1.
    + rewrite list_lookup_insert_ne; [by apply H3|].
      intros <-. apply H3 in Hin. apply H1 in Hreg. congruence.
Qed.

Lemma wf_handleEvent event w w' :
  wf w -> handleEvent event w = Some w' -> wf w'.
Proof.
  intros Hwf [->|(c & Hreg & _ & ->)]%handleEvent_cases; [done|].
  by apply wf_resolved.
Qed.

Lemma wf_NotifierForFile file w : wf w -> wf (NotifierForFile file w).2.
Proof.
  intros [H1 H2 H3]. unfold NotifierForFile, channel.make, syncMap.LoadOrStore.
  world_simpl.
  destruct (filesToNotifiers (notifier w) !! file) as [c|] eqn:Hreg;
    cbn [snd]; split; world_simpl.
  - intros Q c' HQ. apply lookup_app_l_Some. by eapply H1.
  - done.
  - intros c' Hin. apply lookup_app_l_Some. by apply H3.
  - intros Q c' [[<- <-]|[Hne HQ]]%lookup_insert_Some.
    + rewrite lookup_app_r by lia. by rewrite Nat.sub_diag.
    + apply lookup_app_l_Some. by eapply H1.
  - intros Q1 Q2 c' [[<- <-]|[Hne1 HQ1]]%lookup_insert_Some
                    [[<- Heq]|[Hne2 HQ2]]%lookup_insert_Some; try done.
    + apply H1, lookup_lt_Some in HQ2. lia.
    + subst c'. apply H1, lookup_lt_Some in HQ1. lia.
    + by eapply H2.
  - intros c' Hin. apply lookup_app_l_Some. by apply H3.
Qed.

Lemma wf_step w w' : wf w -> initializeWatcher_step w = Some w' -> wf w'.
Proof.
  intros Hwf. unfold initializeWatcher_step.
  destruct (task w); [|done|done].
  destruct (Events (watcher (notifier w))) as [|event rest].
  - destruct (EventsClosed _); [|done]. intros [= <-].
    by apply wf_set_task, wf_set_watcher.
  - match goal with |- context [handleEvent event ?w1] =>
      destruct (handleEvent event w1) as [w2|] eqn:Hh end.
    + intros [= <-]. eapply wf_handleEvent; [|exact Hh].
      by apply wf_set_watcher.
    + intros [= <-].
      by apply wf_set_task, wf_set_watcher, wf_delete, wf_set_watcher.
Qed.

Lemma wf_initial wt ops d t :
  wf (mkWorld (mkDirectoryNotifier wt ∅ ops d) [] t []).
Proof.
  split; world_simpl.
  - intros P c. by rewrite lookup_empty.
  - intros P Q c. by rewrite lookup_empty.
  - intros c Hin. by apply elem_of_nil in Hin.
Qed.

Lemma wf_New os d ops r w : New os d ops = (r, Some w) -> wf w.
Proof.
  unfold New, NewWatcher, Add.
  destruct (newWatcherErr os); [done|].
  destruct (addErr os d); intros [= _ <-].
  - apply wf_initial.
  - apply wf_set_watcher, wf_initial.
Qed.

Lemma wf_transition w w' : wf w -> transition w w' -> wf w'.
Proof.
  intros Hwf Htr. destruct Htr as [file w|w w' Hstep|e w _|w].
  - by apply wf_NotifierForFile.
  - by eapply wf_step.
  - by apply wf_set_watcher.
  - by apply wf_set_watcher.
Qed.

(** The invariant holds all along every execution. *)
Lemma reachable_wf w : reachable w -> wf w.
Proof.
  induction 1 as [os d ops r w HNew|w w' _ IH Htr].
  - by eapply wf_New.
  - by eapply wf_transition.
Qed.

End Invariant.


(** ** The concrete run *)

Section ExampleFacts.

Import Example.

Lemma New_w0 :
  New osOk "/tmp/x" [Write; Remove] = ((Some (notifier w0), None), Some w0).
Proof. reflexivity. Qed.

Lemma reachable_w0 : reachable w0.
Proof. eapply r_New. exact New_w0. Qed.

Lemma reachable_w1 : reachable w1.
Proof. eapply r_transition; [exact reachable_w0|apply t_register]. Qed.

Lemma reachable_w2 : reachable w2.
Proof. eapply r_transition; [exact reachable_w1|apply t_register]. Qed.

Lemma wf_w0 : wf w0.
Proof. exact (reachable_wf _ reachable_w0). Qed.

Lemma wf_w1 : wf w1.
Proof. exact (reachable_wf _ reachable_w1). Qed.

Lemma wf_w2 : wf w2.
Proof. exact (reachable_wf _ reachable_w2). Qed.

End ExampleFacts.

(** ** Registration *)

Section Registration.

Implicit Types (w : World) (P Q : string).

Lemma NotifierForFile_taken P w c :
  registry w !! P = Some c ->
  NotifierForFile P w =
    ((None, Some (alreadyWatching P)), set_chans (chans w ++ [false]) w).
Proof.
  intros Hreg. unfold NotifierForFile, channel.make, syncMap.LoadOrStore.
  world_simpl. by rewrite Hreg.
Qed.

Lemma NotifierForFile_free P w :
  registry w !! P = None ->
  NotifierForFile P w =
    ((Some (length (chans w)), None),
     set_filesToNotifiers (<[P := length (chans w)]> (registry w))
       (set_chans (chans w ++ [false]) w)).
Proof.
  intros Hreg. unfold NotifierForFile, channel.make, syncMap.LoadOrStore.
  world_simpl. by rewrite Hreg.
Qed.

(** Whatever the outcome, the entries of the other paths stay as they
    are. *)
Lemma NotifierForFile_frame P Q w c :
  P <> Q -> pending Q c w -> pending Q c (NotifierForFile P w).2.
Proof.
  intros Hne (Hreg & Hopen & Hlog).
  destruct (registry w !! P) as [c'|] eqn:HP.
  - rewrite (NotifierForFile_taken _ _ _ HP). cbn [snd].
    split; [done|]. split; [|done]. world_simpl. by apply lookup_app_l_Some.
  - rewrite (NotifierForFile_free _ _ HP). cbn [snd].
    split; [|split; [|done]]; world_simpl.
    + by rewrite lookup_insert_ne.
    + by apply lookup_app_l_Some.
Qed.

End Registration.

(** ** The goroutine *)

Section Goroutine.

Implicit Types (w : World) (event : Event).

(** Under the invariant, handling an event never panics. *)
Lemma handleEvent_total event w :
  wf w -> exists w', handleEvent event w = Some w'.
Proof.
  intros Hwf. destruct (registry w !! Name event) as [c|] eqn:Hreg.
  - destruct (codeMatches (opsToWatch (notifier w)) event) eqn:Hm.
    + eexists. apply rangeOps_resolve; [exact Hm|exact Hreg|].
      by eapply wf_open.
    + eexists. by apply handleEvent_nomatch.
  - eexists. by apply handleEvent_absent.
Qed.

(** The entries of the other paths stay as they are. *)
Lemma handleEvent_frame event w w' Q c :
  wf w -> Name event <> Q -> handleEvent event w = Some w' ->
  pending Q c w -> pending Q c w'.
Proof.
  intros Hwf Hne [->|(c' & Hreg & Hopen & ->)]%handleEvent_cases; [done|].
  intros (HQ & HQopen & HQlog).
  assert (c' <> c) by (intros ->; by apply Hne, (wf_inj _ Hwf _ _ c)).
  split; [|split]; world_simpl.
  - by rewrite lookup_delete_ne.
  - by rewrite list_lookup_insert_ne.
  - by intros [?|?]%elem_of_cons.
Qed.

Lemma step_blocked w :
  task w = Running ->
  Events (watcher (notifier w)) = [] ->
  EventsClosed (watcher (notifier w)) = false ->
  initializeWatcher_step w = None.
Proof.
  intros Ht He Hc. unfold initializeWatcher_step. by rewrite Ht, He, Hc.
Qed.

Lemma step_exit w :
  task w = Running ->
  Events (watcher (notifier w)) = [] ->
  EventsClosed (watcher (notifier w)) = true ->
  initializeWatcher_step w
  = Some (set_task Exited (set_watcher (Close (watcher (notifier w))) w)).
Proof.
  intros Ht He Hc. unfold initializeWatcher_step. by rewrite Ht, He, Hc.
Qed.

Lemma step_done w : task w <> Running -> initializeWatcher_step w = None.
Proof. unfold initializeWatcher_step. by destruct (task w). Qed.

Lemma run_done fuel w : task w <> Running -> initializeWatcher fuel w = w.
Proof.
  intros Ht. destruct fuel; [done|]. cbn [initializeWatcher].
  by rewrite step_done.
Qed.

Lemma step_receive w event rest :
  wf w -> task w = Running ->
  Events (watcher (notifier w)) = event :: rest ->
  exists w', handleEvent event (received w) = Some w' /\
             initializeWatcher_step w = Some w'.
Proof.
  intros Hwf Ht He.
  destruct (handleEvent_total event (received w)) as [w' Hw'];
    [by apply wf_set_watcher|].
  exists w'. split; [done|].
  unfold initializeWatcher_step. rewrite Ht, He.
  unfold received in Hw'. rewrite He in Hw'. cbn [tail] in Hw'.
  by rewrite Hw'.
Qed.

(** Handling an event leaves the goroutine and the watcher as they are. *)
Lemma handleEvent_notifier event w w' :
  handleEvent event w = Some w' ->
  task w' = task w /\ watcher (notifier w') = watcher (notifier w) /\
  opsToWatch (notifier w') = opsToWatch (notifier w) /\
  dir (notifier w') = dir (notifier w).
Proof. by intros [->|(c & _ & _ & ->)]%handleEvent_cases. Qed.

End Goroutine.

(** ** Runs of the goroutine *)

Section Runs.

Implicit Types (w : World) (event : Event).

Lemma received_deliver event w :
  Events (watcher (notifier w)) = [] -> received (deliverEvent event w) = w.
Proof. open_world w. by intros ->. Qed.

(** A single event on an empty queue: one step handles it. *)
Lemma step_single event w :
  wf w -> task w = Running -> Events (watcher (notifier w)) = [] ->
  exists w', handleEvent event w = Some w' /\
             initializeWatcher_step (deliverEvent event w) = Some w'.
Proof.
  intros Hwf Ht He.
  destruct (step_receive (deliverEvent event w) event [])
    as (w' & Hh & Hstep); [by apply wf_set_watcher|done| |].
  { world_simpl. by rewrite He. }
  rewrite received_deliver in Hh by done. by exists w'.
Qed.

(** With no operation configured a step changes neither the registry nor
    any channel. *)
Lemma step_no_ops w w' :
  opsToWatch (notifier w) = [] ->
  initializeWatcher_step w = Some w' ->
  opsToWatch (notifier w') = [] /\ registry w' = registry w /\
  chans w' = chans w /\ closed w' = closed w.
Proof.
  intros Hops. unfold initializeWatcher_step, handleEvent, rangeIndices.
  destruct (task w); [|done|done].
  destruct (Events (watcher (notifier w))) as [|event rest].
  - destruct (EventsClosed _); [|done]. by intros [= <-].
  - world_simpl. rewrite Hops. cbn [length seq rangeOps]. by intros [= <-].
Qed.

Lemma run_S fuel w w' :
  initializeWatcher_step w = Some w' ->
  initializeWatcher (S fuel) w = initializeWatcher fuel w'.
Proof. intros H. cbn [initializeWatcher]. by rewrite H. Qed.

(** While the stream is open the goroutine keeps running. *)
Lemma run_open fuel w :
  wf w -> task w = Running ->
  EventsClosed (watcher (notifier w)) = false ->
  task (initializeWatcher fuel w) = Running.
Proof.
  revert w. induction fuel as [|fuel IH]; intros w Hwf Ht Hc; [done|].
  cbn [initializeWatcher].
  destruct (Events (watcher (notifier w))) as [|event rest] eqn:He.
  - by rewrite step_blocked.
  - destruct (step_receive w event rest) as (w' & Hh & ->); [done..|].
    destruct (handleEvent_notifier _ _ _ Hh) as (Ht' & Hw' & _).
    apply IH.
    + eapply wf_handleEvent; [|exact Hh]. by apply wf_set_watcher.
    + by rewrite Ht'.
    + by rewrite Hw'.
Qed.

(** Once the stream has ended the goroutine drains the queue and exits,
    calling [Close] once on the way. *)
Lemma run_closed w :
  wf w -> task w = Running ->
  EventsClosed (watcher (notifier w)) = true ->
  let w' := initializeWatcher (S (length (Events (watcher (notifier w))))) w in
  wf w' /\ task w' = Exited /\
  CloseCalls (watcher (notifier w')) = S (CloseCalls (watcher (notifier w))).
Proof.
  remember (Events (watcher (notifier w))) as es eqn:He.
  revert w He. induction es as [|event rest IH]; intros w He Hwf Ht Hc.
  - cbn [length initializeWatcher]. rewrite step_exit by done.
    split; [by apply wf_set_task, wf_set_watcher|done].
  - cbn [length]. cbn zeta.
    destruct (step_receive w event rest) as (w' & Hh & Hstep); [done..|].
    rewrite (run_S _ _ _ Hstep).
    destruct (handleEvent_notifier _ _ _ Hh) as (Ht' & Hw' & _).
    assert (Hrest : rest = Events (watcher (notifier w'))).
    { rewrite Hw'. world_simpl. by rewrite <- He. }
    assert (Hcalls : CloseCalls (watcher (notifier w'))
                     = CloseCalls (watcher (notifier w))) by by rewrite Hw'.
    rewrite <- Hcalls. apply IH; [done| | |].
    + eapply wf_handleEvent; [|exact Hh]. by apply wf_set_watcher.
    + by rewrite Ht'.
    + by rewrite Hw'.
Qed.

(** Along an execution [Close] has been called by the goroutine alone:
    not at all while it runs, once when it has stopped. *)
Lemma reachable_CloseCalls w :
  reachable w ->
  CloseCalls (watcher (notifier w)) = if decide (task w = Running) then 0%nat else 1%nat.
Proof.
  induction 1 as [os d ops r w HNew|w w' _ IH Htr].
  - revert HNew. unfold New, NewWatcher, Add.
    destruct (newWatcherErr os); [done|].
    by destruct (addErr os d); intros [= _ <-].
  - destruct Htr as [file w|w w' Hstep|e w _|w]; try exact IH.
    + unfold NotifierForFile, channel.make, syncMap.LoadOrStore.
      by destruct (registry _ !! file).
    + revert Hstep. unfold initializeWatcher_step.
      destruct (task w) eqn:Ht; [|done|done].
      rewrite decide_True in IH by done.
      destruct (Events (watcher (notifier w))) as [|event rest].
      * destruct (EventsClosed _); [|done]. intros [= <-]. world_simpl.
        by rewrite IH.
      * match goal with |- context [handleEvent event ?w1] =>
          destruct (handleEvent event w1) as [w2|] eqn:Hh end;
          intros [= <-].
        -- destruct (handleEvent_notifier _ _ _ Hh) as (-> & -> & _).
           world_simpl. rewrite Ht. by rewrite decide_True.
        -- world_simpl. by rewrite IH.
Qed.

End Runs.

(** ** Leaving the loop *)

Section Exit.

Implicit Types (w : World).

(** The one step that makes the goroutine exit. *)
Lemma step_Exited w w' :
  task w = Running ->
  initializeWatcher_step w = Some w' -> task w' = Exited ->
  Events (watcher (notifier w)) = [] /\
  EventsClosed (watcher (notifier w)) = true /\
  w' = set_task Exited (set_watcher (Close (watcher (notifier w))) w).
Proof.
  intros Ht. unfold initializeWatcher_step. rewrite Ht.
  destruct (Events (watcher (notifier w))) as [|event rest].
  - destruct (EventsClosed _); [|done]. by intros [= <-].
  - match goal with |- context [handleEvent event ?w1] =>
      destruct (handleEvent event w1) as [w2|] eqn:Hh end;
      intros [= <-]; [|done].
    destruct (handleEvent_notifier _ _ _ Hh) as (-> & _).
    world_simpl. congruence.
Qed.

Lemma reachable_deliver_end event w :
  reachable w -> EventsClosed (watcher (notifier w)) = false ->
  reachable (closeStream (deliverEvent event w)).
Proof.
  intros Hr Hc. eapply r_transition; [|apply t_endStream].
  eapply r_transition; [exact Hr|]. by apply t_deliver.
Qed.

End Exit.

(** * The properties of the specification *)

(** C5. A call [NotifierForFile(P)] on a path that has a live entry fails
    with the already-registered error and leaves the entry as it was: the
    same handle, still pending, and the registry unchanged.  On a path
    without an entry it makes a fresh channel (one that was not a channel
    before and that no path is registered with), stores it under [P] and
    returns it. *)
Theorem C5_NotifierForFile_check_and_insert (P : string) (w : World) :
  wf w ->
  match registry w !! P with
  | Some c =>
      exists w',
        NotifierForFile P w = ((None, Some (alreadyWatching P)), w') /\
        registry w' = registry w /\
        pending P c w'
  | None =>
      exists c w',
        NotifierForFile P w = ((Some c, None), w') /\
        chans w !! c = None /\
        (forall Q, registry w !! Q <> Some c) /\
        registry w' = <[P := c]> (registry w) /\
        pending P c w'
  end.
Proof.
  intros Hwf. destruct (registry w !! P) as [c|] eqn:Hreg.
  - eexists. split; [by eapply NotifierForFile_taken|]. split; [done|].
    destruct (wf_pending _ _ _ Hwf Hreg) as (? & Hopen & Hlog).
    split; [done|]. split; [|done]. world_simpl. by apply lookup_app_l_Some.
  - eexists _, _. split; [by apply NotifierForFile_free|].
    assert (Hfresh : chans w !! length (chans w) = None)
      by (apply lookup_ge_None; lia).
    split; [done|]. split.
    { intros Q HQ. apply (wf_open _ Hwf) in HQ. congruence. }
    split; [done|]. split; [|split]; world_simpl.
    + by rewrite lookup_insert_eq.
    + rewrite lookup_app_r by lia. by rewrite Nat.sub_diag.
    + intros Hin. apply (wf_closed _ Hwf) in Hin. congruence.
Qed.

(** C5 at the second registration of [/tmp/x/a.txt]. *)
Lemma C5_witness :
  exists w',
    NotifierForFile Example.fileA Example.w1
    = ((None, Some (alreadyWatching Example.fileA)), w') /\
    registry w' = registry Example.w1 /\
    pending Example.fileA 0%nat w'.
Proof.
  exact (C5_NotifierForFile_check_and_insert Example.fileA Example.w1 wf_w1).
Defined.

(** C10. When [NotifierForFile(P)] returns an error, the handle it returns
    is nil; in particular it is not the handle registered for [P].  The
    error is returned exactly when [P] has an entry. *)
Theorem C10_NotifierForFile_error_returns_nil (P : string) (w : World) :
  let ret := (NotifierForFile P w).1 in
  (is_Some ret.2 <-> is_Some (registry w !! P)) /\
  (is_Some ret.2 ->
   ret.1 = None /\ forall c, registry w !! P = Some c -> ret.1 <> Some c).
Proof.
  cbn zeta. destruct (registry w !! P) as [c|] eqn:Hreg.
  - rewrite (NotifierForFile_taken _ _ _ Hreg). cbn [fst snd].
    split; [done|]. intros _. split; [done|]. by intros c' _.
  - rewrite (NotifierForFile_free _ _ Hreg). cbn [fst snd].
    split; [split; by intros [? ?]|]. by intros [? ?].
Qed.

(** C10 at the second registration of [/tmp/x/a.txt]. *)
Lemma C10_witness :
  (NotifierForFile Example.fileA Example.w1).1.1 = None /\
  forall c, registry Example.w1 !! Example.fileA = Some c ->
            (NotifierForFile Example.fileA Example.w1).1.1 <> Some c.
Proof.
  apply (C10_NotifierForFile_error_returns_nil Example.fileA Example.w1).
  vm_compute. eauto.
Defined.

(** C9. With an empty set of operations of interest, handling an event --
    whatever its path and operation -- changes nothing, and however long the
    goroutine runs the registry keeps all its entries and no channel is
    closed. *)
Theorem C9_no_operations_no_resolution (w : World) :
  opsToWatch (notifier w) = [] ->
  (forall event, handleEvent event w = Some w) /\
  forall fuel,
    let w' := initializeWatcher fuel w in
    registry w' = registry w /\ chans w' = chans w /\ closed w' = closed w.
Proof.
  intros Hops. split.
  - intros event. unfold handleEvent, rangeIndices. by rewrite Hops.
  - intros fuel. revert w Hops. induction fuel as [|fuel IH]; intros w Hops; [done|].
    cbn zeta. cbn [initializeWatcher].
    destruct (initializeWatcher_step w) as [w1|] eqn:Hstep; [|done].
    destruct (step_no_ops _ _ Hops Hstep) as (Hops1 & <- & <- & <-).
    by apply IH.
Qed.

(** C9 on a notifier built without operations, with one pending
    registration and two queued events for its path. *)
Lemma C9_witness :
  let w :=
    mkWorld
      (mkDirectoryNotifier
         (mkWatcher [Example.writeA; Example.createA] true ["/tmp/x"%string] 0)
         {[ Example.fileA := 0%nat ]} [] "/tmp/x")
      [false] Running [] in
  (forall event, handleEvent event w = Some w) /\
  forall fuel,
    let w' := initializeWatcher fuel w in
    registry w' = registry w /\ chans w' = chans w /\ closed w' = closed w.
Proof.
  intros w. apply (C9_no_operations_no_resolution w). reflexivity.
Defined.

(** C4. Let the path of [event] have a pending registration with handle [c],
    and let [event] be the one event in the queue, matching the operations of
    interest.  The goroutine then closes [c] -- once: [c] is the one close
    call added to the log, in which it did not occur before -- and removes
    the entry, touching no other channel.  When the same event is delivered
    again, with no registration in between, the step of the goroutine leaves
    the world exactly as it was: no close, no change of the registry, no
    panic. *)
Theorem C4_signaled_exactly_once (event : Event) (c : chan) (w : World) :
  wf w -> task w = Running -> Events (watcher (notifier w)) = [] ->
  registry w !! Name event = Some c ->
  specMatches (opsToWatch (notifier w)) event = true ->
  exists w1,
    initializeWatcher_step (deliverEvent event w) = Some w1 /\
    chans w !! c = Some false /\ chans w1 !! c = Some true /\
    (forall c', c' <> c -> chans w1 !! c' = chans w !! c') /\
    closed w1 = c :: closed w /\ (c ∉ closed w) /\
    registry w1 = delete (Name event) (registry w) /\
    task w1 = Running /\
    initializeWatcher_step (deliverEvent event w1) = Some w1.
Proof.
  intros Hwf Ht He Hreg Hm.
  destruct (wf_pending _ _ _ Hwf Hreg) as (_ & Hopen & Hlog).
  pose proof (specMatches_nonempty _ _ Hm) as Hne.
  destruct (step_single event w) as (w1 & Hh & Hstep); [done..|].
  rewrite (handleEvent_resolve _ _ _ Hne Hreg Hopen) in Hh.
  injection Hh as <-. eexists. split; [exact Hstep|].
  split; [done|]. split; [by apply closed_lookup|].
  split; [intros c' Hc'; world_simpl; by rewrite list_lookup_insert_ne|].
  do 4 (split; [done|]).
  destruct (step_single event (resolved (Name event) c w))
    as (w2 & Hh2 & Hstep2); [by apply wf_resolved|done|done|].
  rewrite handleEvent_absent in Hh2 by (world_simpl; apply lookup_delete_eq).
  by injection Hh2 as <-.
Qed.

(** C4 at a write event for [/tmp/x/a.txt] after its registration. *)
Lemma C4_witness :
  exists w1,
    initializeWatcher_step (deliverEvent Example.writeA Example.w1) = Some w1 /\
    chans Example.w1 !! 0%nat = Some false /\ chans w1 !! 0%nat = Some true /\
    (forall c', c' <> 0%nat -> chans w1 !! c' = chans Example.w1 !! c') /\
    closed w1 = 0%nat :: closed Example.w1 /\
    (0%nat ∉ closed Example.w1) /\
    registry w1 = delete (Name Example.writeA) (registry Example.w1) /\
    task w1 = Running /\
    initializeWatcher_step (deliverEvent Example.writeA w1) = Some w1.
Proof.
  apply (C4_signaled_exactly_once Example.writeA 0%nat Example.w1);
    [exact wf_w1|reflexivity..].
Defined.

(** C6. Once the goroutine has resolved the registration of a path -- the
    entry removed and its handle [c] closed -- nothing of that registration
    is left in the registry, and a new [NotifierForFile] call for the path
    succeeds: it returns a handle different from [c], which was not a
    channel before, and which is now pending under the path. *)
Theorem C6_register_again_after_resolution
    (event : Event) (c : chan) (w : World) :
  wf w ->
  registry w !! Name event = Some c ->
  specMatches (opsToWatch (notifier w)) event = true ->
  exists w1 c' w2,
    handleEvent event w = Some w1 /\
    chans w1 !! c = Some true /\
    registry w1 !! Name event = None /\
    (forall Q, registry w1 !! Q <> Some c) /\
    NotifierForFile (Name event) w1 = ((Some c', None), w2) /\
    c' <> c /\ chans w1 !! c' = None /\
    pending (Name event) c' w2.
Proof.
  intros Hwf Hreg Hm.
  destruct (wf_pending _ _ _ Hwf Hreg) as (_ & Hopen & Hlog).
  pose proof (specMatches_nonempty _ _ Hm) as Hne.
  pose proof (wf_resolved _ _ _ Hwf Hreg) as Hwf1.
  set (w1 := resolved (Name event) c w) in *.
  assert (Hclosed : chans w1 !! c = Some true) by by apply closed_lookup.
  assert (Hgone : registry w1 !! Name event = None)
    by (subst w1; world_simpl; apply lookup_delete_eq).
  pose proof (C := NotifierForFile_free _ _ Hgone).
  pose proof (wf_NotifierForFile (Name event) w1 Hwf1) as Hwf2.
  rewrite C in Hwf2. cbn [snd] in Hwf2.
  eexists w1, _, _. split; [by apply handleEvent_resolve|].
  split; [done|]. split; [done|]. split.
  { intros Q HQ. apply (wf_open _ Hwf1) in HQ. congruence. }
  split; [exact C|].
  assert (Hfresh : chans w1 !! length (chans w1) = None)
    by (apply lookup_ge_None; lia).
  split; [intros Heq; rewrite Heq in Hfresh; congruence|].
  split; [done|]. apply wf_pending; [done|].
  world_simpl. apply lookup_insert_eq.
Qed.

(** C6 at a write event for [/tmp/x/a.txt] after its registration. *)
Lemma C6_witness :
  exists w1 c' w2,
    handleEvent Example.writeA Example.w1 = Some w1 /\
    chans w1 !! 0%nat = Some true /\
    registry w1 !! Name Example.writeA = None /\
    (forall Q, registry w1 !! Q <> Some 0%nat) /\
    NotifierForFile (Name Example.writeA) w1 = ((Some c', None), w2) /\
    c' <> 0%nat /\ chans w1 !! c' = None /\
    pending (Name Example.writeA) c' w2.
Proof.
  apply (C6_register_again_after_resolution Example.writeA 0%nat Example.w1);
    [exact wf_w1|reflexivity..].
Defined.

(** C7. Let [Q] have an entry with handle [cq], and let [P] be another path.
    A [NotifierForFile(P)] call, whether it succeeds or fails, leaves [Q]
    registered with [cq], open and never closed; so does the handling of an
    event for [P] after it, which does not panic, and which removes the entry
    of [P] when the event matches. *)
Theorem C7_other_paths_untouched
    (P Q : string) (cq : chan) (event : Event) (w : World) :
  wf w -> P <> Q ->
  registry w !! Q = Some cq ->
  Name event = P ->
  let w1 := (NotifierForFile P w).2 in
  pending Q cq w /\
  pending Q cq w1 /\
  is_Some (registry w1 !! P) /\
  exists w2,
    handleEvent event w1 = Some w2 /\
    pending Q cq w2 /\
    (specMatches (opsToWatch (notifier w)) event = true ->
     registry w2 !! P = None).
Proof.
  intros Hwf Hne HQ HP w1.
  pose proof (wf_pending _ _ _ Hwf HQ) as Hpend.
  pose proof (NotifierForFile_frame P Q w cq Hne Hpend) as Hpend1.
  pose proof (wf_NotifierForFile P w Hwf) as Hwf1.
  fold w1 in Hpend1, Hwf1.
  assert (Hops : opsToWatch (notifier w1) = opsToWatch (notifier w)).
  { subst w1. unfold NotifierForFile, channel.make, syncMap.LoadOrStore.
    by destruct (registry _ !! P). }
  assert (HregP : is_Some (registry w1 !! P)).
  { subst w1. destruct (registry w !! P) as [c|] eqn:Hreg.
    - rewrite (NotifierForFile_taken _ _ _ Hreg). by exists c.
    - rewrite (NotifierForFile_free _ _ Hreg). cbn [snd]. world_simpl.
      rewrite lookup_insert_eq. by eexists. }
  split; [done|]. split; [done|]. split; [done|].
  destruct (handleEvent_total event w1 Hwf1) as [w2 Hh].
  exists w2. split; [done|]. split.
  - eapply handleEvent_frame; [exact Hwf1| |exact Hh|exact Hpend1]. congruence.
  - intros Hm%specMatches_nonempty. destruct HregP as [c Hc].
    rewrite <- Hops in Hm. rewrite <- HP in Hc.
    rewrite (handleEvent_resolve _ _ _ Hm Hc) in Hh
      by (by eapply wf_open).
    injection Hh as <-. rewrite <- HP. world_simpl. apply lookup_delete_eq.
Qed.

(** C7 with [/tmp/x/b.txt] pending while [/tmp/x/a.txt] is registered and
    resolved by a write event. *)
Lemma C7_witness :
  let w := (NotifierForFile Example.fileB Example.w0).2 in
  let w1 := (NotifierForFile Example.fileA w).2 in
  pending Example.fileB 0%nat w /\
  pending Example.fileB 0%nat w1 /\
  is_Some (registry w1 !! Example.fileA) /\
  exists w2,
    handleEvent Example.writeA w1 = Some w2 /\
    pending Example.fileB 0%nat w2 /\
    (specMatches (opsToWatch (notifier w)) Example.writeA = true ->
     registry w2 !! Example.fileA = None).
Proof.
  intros w.
  apply (C7_other_paths_untouched Example.fileA Example.fileB 0%nat
           Example.writeA w).
  - apply wf_NotifierForFile. exact wf_w0.
  - discriminate.
  - reflexivity.
  - reflexivity.
Defined.

(** C8. Take a world of an execution in which the goroutine is running.
    A step makes it exit exactly when the stream has ended, that is, when
    the [Events] channel is closed and empty; that step calls [Close] and
    changes neither the registry nor any channel.  While the stream is open
    the goroutine never exits, however long it runs.  Once the stream has
    been closed the goroutine exits after it has taken the queued events, and
    [Close] has then been called once in the whole execution; every entry
    that is in the registry then is still pending -- its handle open and
    never closed -- and stays so, as the goroutine does nothing more. *)
Theorem C8_loop_ends_with_the_stream (w : World) :
  reachable w -> task w = Running ->
  let wt := watcher (notifier w) in
  ((exists w', initializeWatcher_step w = Some w' /\ task w' = Exited) <->
   Events wt = [] /\ EventsClosed wt = true) /\
  (forall w',
     initializeWatcher_step w = Some w' -> task w' = Exited ->
     CloseCalls wt = 0%nat /\ CloseCalls (watcher (notifier w')) = 1%nat /\
     registry w' = registry w /\ chans w' = chans w /\ closed w' = closed w) /\
  (EventsClosed wt = false ->
   forall fuel, task (initializeWatcher fuel w) = Running) /\
  (EventsClosed wt = true ->
   let w' := initializeWatcher (S (length (Events wt))) w in
   task w' = Exited /\
   CloseCalls (watcher (notifier w')) = 1%nat /\
   (forall P c, registry w' !! P = Some c -> pending P c w') /\
   forall fuel, initializeWatcher fuel w' = w').
Proof.
  intros Hr Ht. cbn zeta. pose proof (reachable_wf _ Hr) as Hwf.
  pose proof (reachable_CloseCalls _ Hr) as Hcalls.
  rewrite decide_True in Hcalls by done.
  split; [|split; [|split]].
  - split.
    + intros (w' & Hstep & Hex). by destruct (step_Exited _ _ Ht Hstep Hex) as (? & ? & _).
    + intros [He Hc]. eexists. split; [by apply step_exit|done].
  - intros w' Hstep Hex.
    destruct (step_Exited _ _ Ht Hstep Hex) as (_ & _ & ->).
    split; [done|]. world_simpl. by rewrite Hcalls.
  - intros Hc fuel. by apply run_open.
  - intros Hc. destruct (run_closed w Hwf Ht Hc) as (Hwf' & Ht' & Hc').
    split; [done|]. split; [by rewrite Hc', Hcalls|].
    split; [intros P c; by apply wf_pending|].
    intros fuel. apply run_done. by rewrite Ht'.
Qed.

(** C8 with [/tmp/x/a.txt] and [/tmp/x/b.txt] registered, a write event for
    the first one queued and the stream closed. *)
Lemma C8_witness :
  let w := closeStream (deliverEvent Example.writeA Example.w2) in
  let w' := initializeWatcher 2 w in
  task w' = Exited /\
  CloseCalls (watcher (notifier w')) = 1%nat /\
  (forall P c, registry w' !! P = Some c -> pending P c w') /\
  forall fuel, initializeWatcher fuel w' = w'.
Proof.
  intros w.
  apply (C8_loop_ends_with_the_stream w);
    [apply reachable_deliver_end; [exact reachable_w2|reflexivity]
    |reflexivity..].
Defined.

(** C1, on the code: the claim fails.  The notifier watches [/tmp/x] for
    [Write] and [Remove], and [/tmp/x/a.txt] has a pending registration.  A
    [Create] event for that path contains none of the two operations, yet the
    goroutine removes the entry and closes its handle: the loop variable is
    the index into [opsToWatch], and index 0 is the empty bitmask. *)
Theorem C1_unwatched_operation_resolves :
  specMatches (opsToWatch (notifier Example.w1)) Example.createA = false /\
  pending Example.fileA 0%nat Example.w1 /\
  exists w',
    initializeWatcher_step (deliverEvent Example.createA Example.w1) = Some w' /\
    handleEvent Example.createA Example.w1 = Some w' /\
    registry w' !! Example.fileA = None /\
    chans w' !! 0%nat = Some true /\
    closed w' = [0%nat].
Proof.
  split; [reflexivity|]. split.
  - apply wf_pending; [exact wf_w1|reflexivity].
  - eexists. repeat split; reflexivity.
Qed.

(** C2, on the code: the claim fails.  With [Write] as the one operation of
    interest, a [Chmod] event satisfies the claim's test for no configured
    operation, yet the loop's test succeeds (at index 0) and the pending
    registration of the event's path is resolved.  The loop's test succeeds
    for every event as soon as one operation is configured. *)
Theorem C2_match_tests_the_index :
  (forall o, o ∈ opsToWatch (notifier Example.v1) ->
             Z.land (Op Example.chmodA) o <> o) /\
  specMatches (opsToWatch (notifier Example.v1)) Example.chmodA = false /\
  codeMatches (opsToWatch (notifier Example.v1)) Example.chmodA = true /\
  handleEvent Example.chmodA Example.v1
  = Some (resolved Example.fileA 0%nat Example.v1) /\
  registry (resolved Example.fileA 0%nat Example.v1) !! Example.fileA = None /\
  forall o ops event, codeMatches (o :: ops) event = true.
Proof.
  split.
  { intros o Ho. apply list_elem_of_singleton in Ho as ->. discriminate. }
  do 4 (split; [reflexivity|]).
  intros o ops event. by apply codeMatches_nonempty.
Qed.

(** C3, on the code: the claim fails in its second half.  [New] on a
    directory that cannot be added returns the error and no notifier, but
    the goroutine was started before [Add] and the watcher is not closed on
    this path: the goroutine is left running, blocked on the open and empty
    [Events] channel, with [Close] never called. *)
Theorem C3_failed_New_leaves_goroutine :
  New Example.osNoDir "/nonexistent" [Write]
  = ((None, Some (OSError "no such file or directory")), Some Example.leaked) /\
  task Example.leaked = Running /\
  EventsClosed (watcher (notifier Example.leaked)) = false /\
  CloseCalls (watcher (notifier Example.leaked)) = 0%nat /\
  initializeWatcher_step Example.leaked = None /\
  forall fuel, task (initializeWatcher fuel Example.leaked) = Running.
Proof.
  do 5 (split; [reflexivity|]).
  intros fuel. by destruct fuel.
Qed.

(** * Further properties of the notifier *)

(** ** What transitions keep *)

Section Frames.

Implicit Types (w : World) (P Q : string).

Lemma NotifierForFile_notifier file w :
  let w' := (NotifierForFile file w).2 in
  dir (notifier w') = dir (notifier w) /\
  opsToWatch (notifier w') = opsToWatch (notifier w) /\
  watcher (notifier w') = watcher (notifier w) /\
  task w' = task w /\ closed w' = closed w.
Proof.
  unfold NotifierForFile, channel.make, syncMap.LoadOrStore.
  by destruct (registry _ !! file).
Qed.

Lemma step_notifier w w' :
  initializeWatcher_step w = Some w' ->
  dir (notifier w') = dir (notifier w) /\
  opsToWatch (notifier w') = opsToWatch (notifier w).
Proof.
  unfold initializeWatcher_step. destruct (task w); [|done|done].
  destruct (Events (watcher (notifier w))) as [|event rest].
  - destruct (EventsClosed _); [|done]. by intros [= <-].
  - match goal with |- context [handleEvent event ?w1] =>
      destruct (handleEvent event w1) as [w2|] eqn:Hh end;
      intros [= <-]; [|done].
    by destruct (handleEvent_notifier _ _ _ Hh) as (_ & _ & -> & ->).
Qed.

Lemma transition_notifier w w' :
  transition w w' ->
  dir (notifier w') = dir (notifier w) /\
  opsToWatch (notifier w') = opsToWatch (notifier w).
Proof.
  intros Htr. destruct Htr as [file w|w w' Hstep|e w _|w]; [|by apply step_notifier|done|done].
  by destruct (NotifierForFile_notifier file w) as (? & ? & _).
Qed.

(** Under the invariant a step of the goroutine does not panic. *)
Lemma step_no_panic w w' :
  wf w -> task w = Running -> initializeWatcher_step w = Some w' ->
  task w' <> Panicked.
Proof.
  intros Hwf Ht. destruct (Events (watcher (notifier w))) as [|event rest] eqn:He.
  - unfold initializeWatcher_step. rewrite Ht, He.
    destruct (EventsClosed _); [|done]. by intros [= <-].
  - destruct (step_receive w event rest Hwf Ht He) as (w1 & Hh & ->).
    intros [= <-]. destruct (handleEvent_notifier _ _ _ Hh) as (-> & _).
    world_simpl. by rewrite Ht.
Qed.

Lemma execution_notifier w w' :
  rtc transition w w' ->
  dir (notifier w') = dir (notifier w) /\
  opsToWatch (notifier w') = opsToWatch (notifier w).
Proof.
  induction 1 as [w|w w1 w2 Htr _ [IH1 IH2]]; [done|].
  destruct (transition_notifier _ _ Htr) as [<- <-]. by split.
Qed.

Lemma reachable_execution w w' :
  reachable w -> rtc transition w w' -> reachable w'.
Proof.
  intros Hr Hrtc. induction Hrtc as [w|w w1 w2 Htr _ IH]; [done|].
  apply IH. by eapply r_transition.
Qed.

Lemma reachable_run fuel w :
  reachable w -> reachable (initializeWatcher fuel w).
Proof.
  revert w. induction fuel as [|fuel IH]; intros w Hr; [done|].
  cbn [initializeWatcher].
  destruct (initializeWatcher_step w) as [w'|] eqn:Hstep; [|done].
  apply IH. eapply r_transition; [exact Hr|by apply t_dispatch].
Qed.

Lemma New_world os d ops r w :
  New os d ops = (r, Some w) ->
  registry w = ∅ /\ chans w = [] /\ task w = Running /\ closed w = [] /\
  dir (notifier w) = d /\ opsToWatch (notifier w) = ops /\
  Events (watcher (notifier w)) = [] /\
  EventsClosed (watcher (notifier w)) = false /\
  CloseCalls (watcher (notifier w)) = 0%nat.
Proof.
  unfold New, NewWatcher, Add.
  destruct (newWatcherErr os); [done|].
  by destruct (addErr os d); intros [= _ <-].
Qed.

End Frames.

(** X1. Along every execution started by [New(dir, ops...)], [Directory]
    returns [dir] and the operations of interest stay [ops]: no registration,
    event or step of the goroutine changes them. *)
Theorem X1_Directory_is_the_directory_of_New
    (os : OS) (d : string) (ops : list uint32)
    (r : option DirectoryNotifier * option error) (w w' : World) :
  New os d ops = (r, Some w) ->
  rtc transition w w' ->
  Directory w' = d /\ opsToWatch (notifier w') = ops.
Proof.
  intros HNew Hrtc. unfold Directory.
  destruct (execution_notifier _ _ Hrtc) as [-> ->].
  by destruct (New_world _ _ _ _ _ HNew) as (_ & _ & _ & _ & ? & ? & _).
Qed.

(** X1 after [New("/tmp/x", Write, Remove)] and two registrations. *)
Lemma X1_witness :
  Directory Example.w2 = "/tmp/x"%string /\
  opsToWatch (notifier Example.w2) = [Write; Remove].
Proof.
  apply (X1_Directory_is_the_directory_of_New Example.osOk "/tmp/x"
           [Write; Remove] _ Example.w0 Example.w2 New_w0).
  eapply rtc_l; [apply (t_register Example.fileA)|].
  apply rtc_once, (t_register Example.fileB).
Defined.


(** X3. In no execution does the goroutine panic: [close] is never called
    on a channel that is already closed. *)
Theorem X3_goroutine_never_panics (w : World) :
  reachable w -> task w <> Panicked.
Proof.
  induction 1 as [os d ops r w HNew|w w' Hr IH Htr].
  - destruct (New_world _ _ _ _ _ HNew) as (_ & _ & -> & _). done.
  - pose proof (reachable_wf _ Hr) as Hwf.
    destruct Htr as [file w|w w' Hstep|e w _|w]; [|..|done|done].
    + by destruct (NotifierForFile_notifier file w) as (_ & _ & _ & -> & _).
    + destruct (decide (task w = Running)) as [Ht|Ht].
      * by eapply step_no_panic.
      * by rewrite step_done in Hstep.
Qed.

(** X3 after two registrations, an event and the end of the stream. *)
Lemma X3_witness :
  task (initializeWatcher 2
          (closeStream (deliverEvent Example.writeA Example.w2))) <> Panicked.
Proof.
  apply X3_goroutine_never_panics, reachable_run, reachable_deliver_end;
    [exact reachable_w2|reflexivity].
Defined.

(** ** Channels and entries along an execution *)

Section Monotone.

Implicit Types (w : World) (P Q : string) (c : nat).


Lemma NotifierForFile_chans file w :
  chans (NotifierForFile file w).2 = chans w ++ [false].
Proof.
  unfold NotifierForFile, channel.make, syncMap.LoadOrStore.
  by destruct (registry _ !! file).
Qed.

(** What a step of the goroutine does to the channels and the registry:
    nothing, or the resolution of one entry; a panic only deletes. *)
Lemma step_cases w w' :
  initializeWatcher_step w = Some w' ->
  (chans w' = chans w /\ closed w' = closed w /\
   (registry w' = registry w \/
    exists P, task w' = Panicked /\ registry w' = delete P (registry w))) \/
  exists P c,
    registry w !! P = Some c /\ chans w !! c = Some false /\
    registry w' = delete P (registry w) /\
    chans w' = <[c := true]> (chans w) /\ closed w' = c :: closed w.
Proof.
  unfold initializeWatcher_step. destruct (task w); [|done|done].
  destruct (Events (watcher (notifier w))) as [|event rest].
  - destruct (EventsClosed _); [|done]. intros [= <-]. left. eauto.
  - match goal with |- context [handleEvent event ?w1] =>
      destruct (handleEvent event w1) as [w2|] eqn:Hh end; intros [= <-].
    + apply handleEvent_cases in Hh as [->|(c & Hreg & Hopen & ->)].
      * left. eauto.
      * right. by exists (Name event), c.
    + left. split; [done|]. split; [done|]. right. by exists (Name event).
Qed.

(** Channels are only added, and a closed one stays closed. *)
Lemma transition_chans w w' :
  transition w w' ->
  (length (chans w) <= length (chans w'))%nat /\
  forall c, chans w !! c = Some true -> chans w' !! c = Some true.
Proof.
  intros Htr. destruct Htr as [file w|w w' Hstep|e w _|w]; [| |done|done].
  - rewrite NotifierForFile_chans, length_app. split; [lia|].
    intros c Hc. by apply lookup_app_l_Some.
  - apply step_cases in Hstep
      as [(-> & _)|(P & c0 & _ & Hopen & _ & -> & _)]; [done|].
    rewrite length_insert. split; [done|]. intros c Hc.
    destruct (decide (c = c0)) as [->|Hne]; [congruence|].
    by rewrite list_lookup_insert_ne.
Qed.

Lemma execution_chans w w' :
  rtc transition w w' ->
  (length (chans w) <= length (chans w'))%nat /\
  forall c, chans w !! c = Some true -> chans w' !! c = Some true.
Proof.
  induction 1 as [w|w w1 w2 Htr _ [IH1 IH2]]; [done|].
  destruct (transition_chans _ _ Htr) as [H1 H2]. split; [lia|].
  intros c Hc. by apply IH2, H2.
Qed.



End Monotone.

(** X4. In every execution the registry is consistent: each registered
    handle is an open channel that the goroutine has not closed, two
    different paths never hold the same handle, and every channel in the
    log of the goroutine's [close] calls is closed. *)
Theorem X4_registry_invariant (w : World) :
  reachable w ->
  (forall P c, registry w !! P = Some c -> pending P c w) /\
  (forall P Q c,
     registry w !! P = Some c -> registry w !! Q = Some c -> P = Q) /\
  (forall c, c ∈ closed w -> chans w !! c = Some true).
Proof.
  intros Hwf%reachable_wf. split; [|split].
  - intros P c. by apply wf_pending.
  - apply (wf_inj _ Hwf).
  - apply (wf_closed _ Hwf).
Qed.

(** X4 after two registrations, an event and the end of the stream. *)
Lemma X4_witness :
  let w := initializeWatcher 2
             (closeStream (deliverEvent Example.writeA Example.w2)) in
  (forall P c, registry w !! P = Some c -> pending P c w) /\
  (forall P Q c,
     registry w !! P = Some c -> registry w !! Q = Some c -> P = Q) /\
  (forall c, c ∈ closed w -> chans w !! c = Some true).
Proof.
  intros w.
  apply X4_registry_invariant, reachable_run, reachable_deliver_end;
    [exact reachable_w2|reflexivity].
Defined.

(** X5. A handle obtained from a successful [NotifierForFile] call is never
    handed out again: whatever happens afterwards -- registrations, events,
    resolution of the handle itself -- every later successful call returns a
    channel made after it. *)
Theorem X5_handles_are_never_reused
    (P Q : string) (c c' : nat) (w w1 w2 w3 : World) :
  NotifierForFile P w = ((Some c, None), w1) ->
  rtc transition w1 w2 ->
  NotifierForFile Q w2 = ((Some c', None), w3) ->
  (c < c')%nat.
Proof.
  intros H1 Hrtc H2.
  assert (Hc : c = length (chans w) /\ chans w1 = chans w ++ [false]).
  { pose proof (NotifierForFile_chans P w) as Hch. rewrite H1 in Hch.
    split; [|done]. revert H1.
    unfold NotifierForFile, channel.make, syncMap.LoadOrStore.
    destruct (registry _ !! P); by intros [= <-]. }
  assert (Hc' : c' = length (chans w2)).
  { revert H2. unfold NotifierForFile, channel.make, syncMap.LoadOrStore.
    destruct (registry _ !! Q); by intros [= <-]. }
  destruct Hc as [-> Hch]. subst c'.
  destruct (execution_chans _ _ Hrtc) as [Hlen _].
  rewrite Hch, length_app in Hlen. cbn [length] in Hlen. lia.
Qed.

(** X5 when [/tmp/x/a.txt] is registered, resolved by a write event and
    registered again. *)
Lemma X5_witness :
  exists w3, NotifierForFile Example.fileA
               (initializeWatcher 1 (deliverEvent Example.writeA Example.w1))
             = ((Some 1%nat, None), w3) /\ (0 < 1)%nat.
Proof.
  eexists. split; [reflexivity|].
  eapply (X5_handles_are_never_reused Example.fileA Example.fileA 0 1
            Example.w0 Example.w1
            (initializeWatcher 1 (deliverEvent Example.writeA Example.w1))).
  - reflexivity.
  - eapply rtc_l; [apply (t_deliver Example.writeA); reflexivity|].
    apply rtc_once, t_dispatch. reflexivity.
  - reflexivity.
Defined.



(** ** Bursts of registrations, queues of events *)

Section Sequences.

Implicit Types (w : World) (P Q : string) (c : nat).

Lemma NotifierForFile_result file w :
  match registry w !! file with
  | None => exists c, (NotifierForFile file w).1 = (Some c, None)
  | Some _ => (NotifierForFile file w).1 = (None, Some (alreadyWatching file))
  end.
Proof.
  destruct (registry w !! file) as [c|] eqn:Hreg.
  - by rewrite (NotifierForFile_taken _ _ _ Hreg).
  - rewrite (NotifierForFile_free _ _ Hreg). by eexists.
Qed.

Lemma NotifierForFile_free_after file w P :
  registry (NotifierForFile file w).2 !! P = None <->
  registry w !! P = None /\ P <> file.
Proof.
  destruct (registry w !! file) as [c|] eqn:Hreg.
  - rewrite (NotifierForFile_taken _ _ _ Hreg). cbn [snd]. world_simpl.
    split; [|by intros [HP _]]. intros HP. split; [done|]. congruence.
  - rewrite (NotifierForFile_free _ _ Hreg). cbn [snd]. world_simpl.
    rewrite lookup_insert_None. split; intros [? ?]; by split.
Qed.

Lemma registerAll_cons f rest w :
  registerAll (f :: rest) w
  = ((NotifierForFile f w).1 :: (registerAll rest (NotifierForFile f w).2).1,
     (registerAll rest (NotifierForFile f w).2).2).
Proof.
  cbn [registerAll]. destruct (NotifierForFile f w) as [r w1]. cbn [fst snd].
  by destruct (registerAll rest w1).
Qed.

(** The goroutine's run is an execution. *)
Lemma run_execution fuel w : rtc transition w (initializeWatcher fuel w).
Proof.
  revert w. induction fuel as [|fuel IH]; intros w; [done|].
  cbn [initializeWatcher].
  destruct (initializeWatcher_step w) as [w'|] eqn:Hstep; [|done].
  eapply rtc_l; [by apply t_dispatch|apply IH].
Qed.

(** What handling an event does under the invariant. *)
Lemma handleEvent_wf event w :
  wf w ->
  handleEvent event w
  = Some match registry w !! Name event with
         | Some c =>
             if codeMatches (opsToWatch (notifier w)) event
             then resolved (Name event) c w else w
         | None => w
         end.
Proof.
  intros Hwf. destruct (registry w !! Name event) as [c|] eqn:Hreg.
  - destruct (codeMatches _ event) eqn:Hm.
    + apply rangeOps_resolve; [exact Hm|exact Hreg|by eapply wf_open].
    + by apply handleEvent_nomatch.
  - by apply handleEvent_absent.
Qed.

End Sequences.

(** X7. In a burst of [NotifierForFile] calls, the call number [i], for the
    path [P], succeeds exactly when [P] had no entry before the burst and no
    earlier call of the burst was for [P]; every other call returns the nil
    handle with the already-watching error.  So for each path at most one
    call succeeds: the first one. *)
Theorem X7_first_registration_wins
    (files : list string) (w : World) (i : nat) (P : string)
    (r : option nat * option error) :
  files !! i = Some P ->
  (registerAll files w).1 !! i = Some r ->
  (is_Some r.1 <-> registry w !! P = None /\ P ∉ take i files) /\
  (is_Some r.1 -> r.2 = None) /\
  (r.1 = None -> r.2 = Some (alreadyWatching P)).
Proof.
  revert w i r. induction files as [|f rest IH]; intros w i r Hi Hr; [done|].
  rewrite registerAll_cons in Hr. cbn [fst] in Hr.
  rewrite lookup_cons in Hi. rewrite lookup_cons in Hr. destruct i as [|j].
  - injection Hi as ->. injection Hr as Hr. subst r. cbn [take].
    pose proof (NotifierForFile_result P w) as Hres.
    destruct (registry w !! P) as [c|] eqn:Hreg.
    + rewrite Hres. cbn [fst snd]. split; [|done].
      split; [by intros [? ?]|by intros [? _]].
    + destruct Hres as [c ->]. cbn [fst snd].
      split; [|done]. split; [|by eexists]. intros _. split; [done|].
      apply not_elem_of_nil.
  - destruct (IH _ _ _ Hi Hr) as (H1 & H2 & H3). split; [|done].
    rewrite H1, NotifierForFile_free_after. cbn [take].
    rewrite not_elem_of_cons. tauto.
Qed.

(** X7 at the third call of the burst a.txt, b.txt, a.txt. *)
Lemma X7_witness :
  let r : option nat * option error :=
    (None, Some (alreadyWatching Example.fileA)) in
  (is_Some r.1 <->
   registry Example.w0 !! Example.fileA = None /\
   Example.fileA ∉ take 2 [Example.fileA; Example.fileB; Example.fileA]) /\
  (is_Some r.1 -> r.2 = None) /\
  (r.1 = None -> r.2 = Some (alreadyWatching Example.fileA)).
Proof.
  intros r.
  apply (X7_first_registration_wins
           [Example.fileA; Example.fileB; Example.fileA] Example.w0 2
           Example.fileA r); reflexivity.
Defined.

(** X8. The goroutine takes the queued events in order, one per step.  When
    it has taken them all it is still running with an empty queue; the
    registry has lost exactly the paths named by a queued event that passes
    the test of the loop, and of the handles that were registered exactly
    those have been closed. *)
Theorem X8_queue_drained (w : World) :
  wf w -> task w = Running ->
  let es := Events (watcher (notifier w)) in
  let ops := opsToWatch (notifier w) in
  let w' := initializeWatcher (length es) w in
  task w' = Running /\
  Events (watcher (notifier w')) = [] /\
  (forall P,
     registry w' !! P = if hits ops es P then None else registry w !! P) /\
  (forall P c,
     registry w !! P = Some c -> chans w' !! c = Some (hits ops es P)).
Proof.
  cbn zeta. remember (Events (watcher (notifier w))) as es eqn:He.
  revert w He. induction es as [|event rest IH]; intros w He Hwf Ht.
  - cbn [length initializeWatcher hits existsb]. split; [done|].
    split; [done|]. split; [done|]. intros P c. by apply wf_open.
  - symmetry in He.
    destruct (step_receive w event rest Hwf Ht He) as (w1 & Hh & Hstep).
    cbn [length]. rewrite (run_S _ _ _ Hstep).
    assert (Hwf0 : wf (received w)) by by apply wf_set_watcher.
    pose proof (wf_handleEvent _ _ _ Hwf0 Hh) as Hwf1.
    destruct (handleEvent_notifier _ _ _ Hh) as (Ht1 & Hw1 & Hops1 & _).
    assert (He1 : rest = Events (watcher (notifier w1))).
    { rewrite Hw1. world_simpl. by rewrite He. }
    assert (Hops : opsToWatch (notifier w1) = opsToWatch (notifier w))
      by by rewrite Hops1.
    destruct (IH w1 He1 Hwf1 ltac:(by rewrite Ht1)) as (IH1 & IH2 & IH3 & IH4).
    rewrite Hops in IH3, IH4.
    rewrite (handleEvent_wf _ _ Hwf0) in Hh. injection Hh as Hw.
    change (registry (received w)) with (registry w) in Hw.
    change (opsToWatch (notifier (received w)))
      with (opsToWatch (notifier w)) in Hw.
    split; [done|]. split; [done|].
    assert (Hreg1 : forall P,
               registry w1 !! P
               = if bool_decide (Name event = P)
                    && codeMatches (opsToWatch (notifier w)) event
                 then None else registry w !! P).
    { intros P. subst w1. case_bool_decide as HP; cbn [andb].
      - subst P. destruct (registry w !! Name event) as [c|] eqn:Hreg;
          destruct (codeMatches _ event); try done.
        world_simpl. apply lookup_delete_eq.
      - destruct (registry w !! Name event) as [c|]; [|done].
        destruct (codeMatches _ event); [|done].
        world_simpl. by apply lookup_delete_ne. }
    split.
    + intros P. rewrite IH3, Hreg1. cbn [hits existsb].
      fold (hits (opsToWatch (notifier w)) rest P).
      destruct (bool_decide (Name event = P) && codeMatches _ event);
        cbn [orb]; [by destruct (hits _ rest P)|done].
    + intros P c Hreg. cbn [hits existsb].
      fold (hits (opsToWatch (notifier w)) rest P).
      pose proof (Hreg1 P) as HP.
      destruct (bool_decide (Name event = P) && codeMatches _ event) eqn:Hb;
        cbn [orb].
      * apply (execution_chans _ _ (run_execution (length rest) w1)).
        apply andb_prop in Hb as [HN%bool_decide_eq_true_1 Hm]. subst P w1.
        rewrite Hreg, Hm. world_simpl. apply closed_lookup.
        by apply (wf_open _ Hwf (Name event)).
      * rewrite Hreg in HP. by apply IH4.
Qed.

(** X8 with a.txt and b.txt registered and the queue holding a write event
    for a.txt. *)
Lemma X8_witness :
  let w := deliverEvent Example.writeA Example.w2 in
  let w' := initializeWatcher 1 w in
  task w' = Running /\
  Events (watcher (notifier w')) = [] /\
  (forall P,
     registry w' !! P
     = if hits [Write; Remove] [Example.writeA] P then None
       else registry w !! P) /\
  (forall P c,
     registry w !! P = Some c ->
     chans w' !! c = Some (hits [Write; Remove] [Example.writeA] P)).
Proof.
  intros w. apply (X8_queue_drained w); [|reflexivity].
  apply wf_set_watcher. exact wf_w2.
Defined.

(** * Properties of the command-line client *)

(** ** Labels *)

Section Labels.

Import client.

Implicit Types (s l k v : string) (sep : ascii).

Lemma Split_length s sep : length (Split s sep) = S (Count s sep).
Proof.
  induction s as [|a s IH]; [done|]. cbn [Split Count].
  destruct (Ascii.eqb a sep); cbn [length Nat.add]; [by rewrite IH|].
  destruct (Split s sep) as [|x xs]; [done|]. by rewrite <- IH.
Qed.

Lemma Split_nonnil s sep : Split s sep <> [].
Proof.
  intros H. pose proof (Split_length s sep) as Hlen. by rewrite H in Hlen.
Qed.

Lemma Split_single s sep v :
  Split s sep = [v] -> s = v /\ Count v sep = 0%nat.
Proof.
  revert v. induction s as [|a s IH]; intros v H.
  - by injection H as <-.
  - cbn [Split] in H. destruct (Ascii.eqb a sep) eqn:Ha.
    + injection H as _ H. by destruct (Split_nonnil s sep).
    + destruct (Split s sep) as [|x xs] eqn:Hs;
        [by destruct (Split_nonnil s sep)|].
      injection H as <- ->. destruct (IH x eq_refl) as [-> Hc].
      split; [done|]. cbn [Count]. by rewrite Ha.
Qed.

Lemma Split_pair l sep k v :
  Split l sep = [k; v] ->
  l = k +:+ String sep v /\ Count k sep = 0%nat /\ Count v sep = 0%nat.
Proof.
  revert k. induction l as [|a l IH]; intros k H; [done|].
  cbn [Split] in H. destruct (Ascii.eqb a sep) eqn:Ha.
  - apply Ascii.eqb_eq in Ha as ->. injection H as <- H.
    by apply Split_single in H as [-> ?].
  - destruct (Split l sep) as [|x xs] eqn:Hs; [done|].
    injection H as <- ->. destruct (IH x eq_refl) as (-> & Hx & Hv).
    split; [done|]. split; [|done]. cbn [Count]. by rewrite Ha.
Qed.

Lemma Split_no_sep s sep : Count s sep = 0%nat -> Split s sep = [s].
Proof.
  induction s as [|a s IH]; [done|]. cbn [Split Count].
  destruct (Ascii.eqb a sep); [done|]. intros H. by rewrite IH.
Qed.

Lemma Split_join k v sep :
  Count k sep = 0%nat -> Split (k +:+ String sep v) sep = k :: Split v sep.
Proof.
  induction k as [|a k IH]; cbn [Count].
  - intros _. change ("" +:+ String sep v) with (String sep v).
    cbn [Split]. by rewrite Ascii.eqb_refl.
  - destruct (Ascii.eqb a sep) eqn:Ha; [done|]. intros H.
    change (String a k +:+ String sep v) with (String a (k +:+ String sep v)).
    cbn [Split]. by rewrite Ha, IH.
Qed.

Lemma Split_wellFormed l :
  wellFormed l <-> exists k v, Split l "="%char = [k; v].
Proof.
  unfold wellFormed. pose proof (Split_length l "="%char) as Hlen. split.
  - intros H. rewrite H in Hlen.
    destruct (Split l "=") as [|k [|v [|? ?]]]; try done. by exists k, v.
  - intros (k & v & H). rewrite H in Hlen. cbn [length] in Hlen. lia.
Qed.

End Labels.

Section LabelMaps.

Import client.

Lemma parseLabels_label k v rest (labels : gmap string string) :
  noEquals (k, v) ->
  parseLabels (label (k, v) :: rest) labels
  = parseLabels rest (<[k := v]> labels).
Proof.
  intros [Hk Hv]. cbn [parseLabels fst snd] in *. unfold label.
  cbn [fst snd]. by rewrite Split_join, (Split_no_sep v) by done.
Qed.

Lemma reverse_cons_union (k v : string) (kvs : list (string * string))
    (labels : gmap string string) :
  list_to_map (reverse ((k, v) :: kvs)) ∪ labels
  = list_to_map (reverse kvs) ∪ <[k := v]> labels.
Proof.
  rewrite reverse_cons, list_to_map_app. cbn [list_to_map foldr fst snd uncurry].
  rewrite <- (assoc_L (∪)). f_equal.
  by rewrite <- insert_union_l, (left_id_L ∅ (∪)).
Qed.

End LabelMaps.

(** The loop accepts the labels, or stops at the first malformed one. *)
Lemma parseLabels_outcome
    (ls : list string) (init : gmap string string) :
  match client.parseLabels ls init with
  | inl _ => Forall wellFormed ls
  | inr err =>
      exists pre l post,
        ls = pre ++ l :: post /\ Forall wellFormed pre /\ ~ wellFormed l /\
        err = client.Errorf ("incorrectly specified label: " +:+ l)
  end.
Proof.
  revert init. induction ls as [|l rest IH]; intros init; [by constructor|].
  cbn [client.parseLabels].
  destruct (decide (wellFormed l)) as [Hwf|Hwf].
  - pose proof Hwf as (k & v & ->)%Split_wellFormed.
    specialize (IH (<[k := v]> init)).
    destruct (client.parseLabels rest (<[k := v]> init)) as [m|err].
    + by constructor.
    + destruct IH as (pre & l' & post & -> & Hpre & Hl' & ->).
      exists (l :: pre), l', post. split; [done|]. split; [by constructor|done].
  - destruct (client.Split l "=") as [|k [|v [|? ?]]] eqn:Hs;
      try (exists [], l, rest; by repeat split).
    exfalso. apply Hwf, Split_wellFormed. by exists k, v.
Qed.

(** X9. The label loop of the [create] and [list] actions accepts a list of
    labels exactly when each label contains one ["="]; otherwise it fails at
    the first label that does not, with the error [incorrectly specified
    label: <label>], whatever comes after it. *)
Theorem X9_labels_accepted_or_first_malformed
    (ls : list string) (init : gmap string string) :
  (Forall wellFormed ls <-> exists m, client.parseLabels ls init = inl m) /\
  forall err,
    client.parseLabels ls init = inr err ->
    exists pre l post,
      ls = pre ++ l :: post /\ Forall wellFormed pre /\ ~ wellFormed l /\
      err = client.Errorf ("incorrectly specified label: " +:+ l).
Proof.
  pose proof (parseLabels_outcome ls init) as Hout.
  destruct (client.parseLabels ls init) as [m|err0].
  - split; [|done]. split; [by exists m|done].
  - destruct Hout as (pre & l & post & -> & Hpre & Hl & ->). split.
    + split; [|by intros [m ?]]. intros Hall. exfalso. apply Hl.
      apply Forall_app in Hall as [_ Hall].
      by apply Forall_cons in Hall as [? _].
    + intros err [= <-]. by exists pre, l, post.
Qed.

(** X10. The loop accepts a list of labels and yields the map [m] exactly
    when the labels are [key=value] pairs without ["="] in key or value and
    [m] is the initial map overridden by these pairs, a later pair
    overriding an earlier one with the same key. *)
Theorem X10_labels_round_trip
    (ls : list string) (init m : gmap string string) :
  client.parseLabels ls init = inl m <->
  exists kvs : list (string * string),
    ls = map label kvs /\ Forall noEquals kvs /\
    m = list_to_map (reverse kvs) ∪ init.
Proof.
  split.
  - revert init. induction ls as [|l rest IH]; intros init.
    + intros [= <-]. exists []. split; [done|]. split; [done|].
      cbn. by rewrite (left_id_L ∅ (∪)).
    + cbn [client.parseLabels].
      destruct (client.Split l "=") as [|k [|v [|? ?]]] eqn:Hs; try done.
      intros (kvs & -> & Hkvs & ->)%IH.
      apply Split_pair in Hs as (-> & Hk & Hv).
      exists ((k, v) :: kvs). split; [done|]. split; [by constructor|].
      by rewrite reverse_cons_union.
  - intros (kvs & -> & Hkvs & ->). revert init.
    induction Hkvs as [|[k v] kvs Hkv _ IH]; intros init.
    + cbn. by rewrite (left_id_L ∅ (∪)).
    + cbn [map]. rewrite parseLabels_label by done.
      by rewrite IH, reverse_cons_union.
Qed.

(** ** CreateContainer *)

Section Create.

Import client.

Implicit Types (c : Console) (cl m : gmap string string).

Lemma assignLabels_Some kvs cl c :
  assignLabels kvs (Some cl) c
  = (Done (Some (list_to_map (reverse kvs) ∪ cl)), c).
Proof.
  revert cl. induction kvs as [|[k v] kvs IH]; intros cl.
  - cbn. by rewrite (left_id_L ∅ (∪)).
  - cbn [assignLabels]. by rewrite IH, reverse_cons_union.
Qed.

Lemma assignLabels_None kvs c :
  assignLabels kvs None c
  = (match kvs with [] => Done None | _ => Panic end, c).
Proof. by destruct kvs as [|[k v] kvs]. Qed.

(** Whatever the order in which the pairs of a map are visited, assigning
    them all to [cl] gives the union, the visited map having priority. *)
Lemma assignLabels_any_order kvs m cl c :
  kvs ≡ₚ map_to_list m ->
  assignLabels kvs (Some cl) c = (Done (Some (m ∪ cl)), c).
Proof.
  intros Hperm. rewrite assignLabels_Some.
  assert (list_to_map (reverse kvs) = m) as ->; [|done].
  transitivity (list_to_map (map_to_list m) : gmap string string);
    [|apply list_to_map_to_list].
  apply list_to_map_proper.
  - rewrite reverse_Permutation, Hperm. apply NoDup_fst_map_to_list.
  - by rewrite reverse_Permutation.
Qed.

Lemma overrideName_spec name md c :
  overrideName name md c
  = if decide (name = "") then (Done md, c)
    else match md with
         | Some md' =>
             (Done (Some (pb.ContainerMetadata.mk (Some name)
                            (pb.ContainerMetadata.Attempt md'))), c)
         | None => (Panic, c)
         end.
Proof. unfold overrideName. destruct (decide (name = "")); by destruct md. Qed.

End Create.

Section CreateRun.

Import client.

Implicit Types (c : Console) (cl m : gmap string string).

Lemma rangeMap_default (labels : option (gmap string string)) :
  rangeMap labels = map_to_list (default ∅ labels).
Proof. destruct labels; [done|]. cbn. by rewrite map_to_list_empty. Qed.

(** The request that [CreateContainer] sends when neither the name nor the
    labels make it panic, and what follows the answer. *)
Lemma CreateContainer_sends plat client opts config md ls c :
  loadContainerConfig plat (createOptions.configPath opts) = inl config ->
  overrideName (createOptions.name opts) (pb.ContainerConfig.Metadata config) c
  = (Done md, c) ->
  assignLabels (rangeMap (createOptions.labels opts))
    (pb.ContainerConfig.Labels config) c = (Done ls, c) ->
  let config' := pb.ContainerConfig.mk md ls (pb.ContainerConfig.Rest config) in
  let c1 :=
    mkConsole
      (requests c ++ [pb.CreateContainerRequest (createOptions.podID opts) config'])
      (stdout c) (connCloses c) in
  CreateContainer plat client opts c
  = match pb.RuntimeServiceClient.CreateContainer client
            (createOptions.podID opts) config' with
    | inr err => (Done (Some err), c1)
    | inl r =>
        match pb.CreateContainerResponse.ContainerId r with
        | Some cid =>
            (Done None,
             mkConsole (requests c1) (stdout c ++ [cid +:+ newline])
               (connCloses c))
        | None => (Panic, c1)
        end
    end.
Proof.
  intros Hload Hmd Hls. cbn zeta. unfold CreateContainer, bind.
  rewrite Hload, Hmd, Hls. cbn [send].
  destruct (pb.RuntimeServiceClient.CreateContainer client _ _) as [r|err];
    [|done].
  by destruct (pb.CreateContainerResponse.ContainerId r).
Qed.

Lemma CreateContainer_panics plat client opts config c :
  loadContainerConfig plat (createOptions.configPath opts) = inl config ->
  overrideName (createOptions.name opts) (pb.ContainerConfig.Metadata config) c
  = (Panic, c) \/
  assignLabels (rangeMap (createOptions.labels opts))
    (pb.ContainerConfig.Labels config) c = (Panic, c) ->
  CreateContainer plat client opts c = (Panic, c).
Proof.
  intros Hload H. unfold CreateContainer, bind. rewrite Hload.
  rewrite overrideName_spec in *.
  destruct (decide (createOptions.name opts = "")),
    (pb.ContainerConfig.Metadata config);
    destruct H as [H|H]; try done; by rewrite H.
Qed.

End CreateRun.

(** X11. When the configuration loads and has a label map (and metadata, if
    a name is given), [CreateContainer] sends one request, for the given pod,
    whose configuration is the loaded one with the name replaced by a
    non-empty [opts.name] and with the labels of [opts.labels] added, these
    taking priority over the labels of the configuration.  The result does
    not depend on the order in which the loop visits [opts.labels]. *)
Theorem X11_CreateContainer_merges_labels
    (plat : client.Platform) (rpc : client.pb.RuntimeServiceClient.t)
    (opts : client.createOptions.t) (config : client.pb.ContainerConfig.t)
    (cl : gmap string string) (c : client.Console) :
  client.loadContainerConfig plat (client.createOptions.configPath opts)
  = inl config ->
  client.pb.ContainerConfig.Labels config = Some cl ->
  client.createOptions.name opts = ""%string \/
  is_Some (client.pb.ContainerConfig.Metadata config) ->
  let labels := default ∅ (client.createOptions.labels opts) in
  let name := client.createOptions.name opts in
  let md :=
    if decide (name = ""%string)
    then client.pb.ContainerConfig.Metadata config
    else (fun md0 =>
            client.pb.ContainerMetadata.mk (Some name)
              (client.pb.ContainerMetadata.Attempt md0))
         <$> client.pb.ContainerConfig.Metadata config in
  (forall kvs,
     kvs ≡ₚ map_to_list labels ->
     client.assignLabels kvs (Some cl) c = (client.Done (Some (labels ∪ cl)), c)) /\
  client.requests (client.CreateContainer plat rpc opts c).2
  = client.requests c ++
    [client.pb.CreateContainerRequest (client.createOptions.podID opts)
       (client.pb.ContainerConfig.mk md (Some (labels ∪ cl))
          (client.pb.ContainerConfig.Rest config))].
Proof.
  intros Hload Hcl Hmd. cbn zeta. split; [intros kvs; apply assignLabels_any_order|].
  rewrite (CreateContainer_sends plat rpc opts config
             (if decide (client.createOptions.name opts = ""%string)
              then client.pb.ContainerConfig.Metadata config
              else (fun md0 =>
                      client.pb.ContainerMetadata.mk
                        (Some (client.createOptions.name opts))
                        (client.pb.ContainerMetadata.Attempt md0))
                   <$> client.pb.ContainerConfig.Metadata config)
             (Some (default ∅ (client.createOptions.labels opts) ∪ cl)) c Hload).
  - destruct (client.pb.RuntimeServiceClient.CreateContainer rpc _ _) as [r|err];
      [|done].
    by destruct (client.pb.CreateContainerResponse.ContainerId r).
  - rewrite overrideName_spec.
    destruct (decide (client.createOptions.name opts = ""%string)); [done|].
    destruct Hmd as [?|[md0 ->]]; done.
  - rewrite Hcl. apply assignLabels_any_order. by rewrite rangeMap_default.
Qed.

(** X12. When the configuration loads, [CreateContainer] panics before it
    has sent or printed anything exactly when a name is given and the
    configuration has no metadata, or a label is given and the configuration
    has no label map. *)
Theorem X12_CreateContainer_panics_before_sending
    (plat : client.Platform) (rpc : client.pb.RuntimeServiceClient.t)
    (opts : client.createOptions.t) (config : client.pb.ContainerConfig.t)
    (c : client.Console) :
  client.loadContainerConfig plat (client.createOptions.configPath opts)
  = inl config ->
  client.CreateContainer plat rpc opts c = (client.Panic, c) <->
  (client.createOptions.name opts <> ""%string /\
   client.pb.ContainerConfig.Metadata config = None) \/
  ((exists m, client.createOptions.labels opts = Some m /\ m <> ∅) /\
   client.pb.ContainerConfig.Labels config = None).
Proof.
  intros Hload.
  assert (Hsent : forall md ls r c',
            client.overrideName (client.createOptions.name opts)
              (client.pb.ContainerConfig.Metadata config) c = (client.Done md, c) ->
            client.assignLabels (client.rangeMap (client.createOptions.labels opts))
              (client.pb.ContainerConfig.Labels config) c = (client.Done ls, c) ->
            client.CreateContainer plat rpc opts c = (r, c') ->
            c' <> c).
  { intros md ls r c' Hmd Hls Hrun Heq. subst c'.
    rewrite (CreateContainer_sends plat rpc opts config md ls c Hload Hmd Hls)
      in Hrun.
    assert (Hlen : forall reqs out n,
              client.mkConsole (client.requests c ++ reqs) out n = c ->
              reqs = []).
    { intros reqs out n Hc. apply (f_equal client.requests) in Hc.
      cbn in Hc. apply (f_equal length) in Hc. rewrite length_app in Hc.
      destruct reqs; [done|]. cbn in Hc. lia. }
    destruct (client.pb.RuntimeServiceClient.CreateContainer rpc _ _) as [resp|err].
    - destruct (client.pb.CreateContainerResponse.ContainerId resp);
        injection Hrun as _ Hc; by apply Hlen in Hc.
    - injection Hrun as _ Hc. by apply Hlen in Hc. }
  split.
  - intros Hrun.
    destruct (decide (client.createOptions.name opts = ""%string)) as [Hn|Hn];
      destruct (client.pb.ContainerConfig.Metadata config) as [md0|] eqn:Hmd;
      try (left; by split).
    all: destruct (client.pb.ContainerConfig.Labels config) as [cl|] eqn:Hcl.
    all: try (exfalso; eapply Hsent; [..|exact Hrun|reflexivity];
              [rewrite overrideName_spec, ?decide_True, ?decide_False by done;
               reflexivity
              |apply assignLabels_Some]).
    all: destruct (client.createOptions.labels opts) as [m|] eqn:Hm.
    all: try (exfalso; eapply Hsent; [..|exact Hrun|reflexivity];
              [rewrite overrideName_spec, ?decide_True, ?decide_False by done;
               reflexivity
              |reflexivity]).
    all: destruct (decide (m = ∅)) as [->|Hne];
      [|right; split; [by exists m|done]].
    all: exfalso; eapply Hsent; [..|exact Hrun|reflexivity];
      [rewrite overrideName_spec, ?decide_True, ?decide_False by done;
       reflexivity
      |cbn; by rewrite map_to_list_empty].
  - intros H. apply (CreateContainer_panics plat rpc opts config c Hload).
    destruct H as [[Hn Hmd]|[(m & Hm & Hne) Hcl]].
    + left. rewrite overrideName_spec, Hmd. by rewrite decide_False.
    + right. rewrite Hm, Hcl, assignLabels_None. cbn [client.rangeMap].
      destruct (map_to_list m) eqn:Hl; [|done].
      by apply map_to_list_empty_iff in Hl.
Qed.

(** X11 for [create --pod pod1 --name web --label env=prod] with a
    configuration that has the labels [tier=db] and [env=dev]. *)
Lemma X11_witness :
  let labels : gmap string string := {[ "env"%string := "prod"%string ]} in
  let cl : gmap string string :=
    {[ "tier"%string := "db"%string; "env"%string := "dev"%string ]} in
  (forall kvs,
     kvs ≡ₚ map_to_list labels ->
     client.assignLabels kvs (Some cl) client.start
     = (client.Done (Some (labels ∪ cl)), client.start)) /\
  client.requests
    (client.CreateContainer ClientExample.plat ClientExample.rpc
       ClientExample.createOpts client.start).2
  = [client.pb.CreateContainerRequest "pod1"
       (client.pb.ContainerConfig.mk
          (Some (client.pb.ContainerMetadata.mk (Some "web"%string) (Some 0)))
          (Some (labels ∪ cl)) "image: redis")].
Proof.
  intros labels cl.
  apply (X11_CreateContainer_merges_labels ClientExample.plat
           ClientExample.rpc ClientExample.createOpts ClientExample.config
           cl client.start).
  - reflexivity.
  - reflexivity.
  - right. by eexists.
Defined.

(** X12 for the same command with a configuration that has neither metadata
    nor labels. *)
Lemma X12_witness :
  client.CreateContainer ClientExample.plat ClientExample.rpc
    ClientExample.createBare client.start
  = (client.Panic, client.start) <->
  (client.createOptions.name ClientExample.createBare <> ""%string /\
   client.pb.ContainerConfig.Metadata ClientExample.bare = None) \/
  ((exists m,
      client.createOptions.labels ClientExample.createBare = Some m /\
      m <> ∅) /\
   client.pb.ContainerConfig.Labels ClientExample.bare = None).
Proof.
  apply (X12_CreateContainer_panics_before_sending ClientExample.plat
           ClientExample.rpc ClientExample.createBare ClientExample.bare
           client.start).
  reflexivity.
Defined.

(** ** What the operations do to the console *)

Lemma console_eta (c : client.Console) :
  client.mkConsole (client.requests c ++ []) (client.stdout c ++ [])
    (client.connCloses c) = c.
Proof. destruct c. cbn. by rewrite !app_nil_r. Qed.

(** The shape of the proofs below: name the requests and the output. *)
Ltac console reqs out :=
  exists reqs, out; cbn;
  rewrite <- ?app_assoc, ?app_nil_r;
  repeat split; try done; try (cbn; lia).

Ltac unchanged :=
  exists [], []; rewrite console_eta;
  repeat split; try done; cbn; lia.

Section Consoles.

Import client.

Implicit Types (c : Console).

Lemma printsOnly_ret {A} (a : A) : printsOnly (ret a).
Proof.
  intros c. exists []. split; [|done]. cbn. rewrite app_nil_r. by destruct c.
Qed.

Lemma printsOnly_panic {A} : printsOnly (@panic A).
Proof.
  intros c. exists []. split; [|done]. cbn. rewrite app_nil_r. by destruct c.
Qed.

Lemma printsOnly_deref {A} (p : option A) : printsOnly (deref p).
Proof. destruct p; [apply printsOnly_ret|apply printsOnly_panic]. Qed.

Lemma printsOnly_Print s : printsOnly (Print s).
Proof. intros c. by exists [s]. Qed.

Lemma printsOnly_bind {A B} (m : M A) (k : A -> M B) :
  printsOnly m -> (forall a, printsOnly (k a)) -> printsOnly (bind m k).
Proof.
  intros Hm Hk c. unfold bind. destruct (Hm c) as (out & Hc & Hf).
  destruct (m c) as [[a| |msg] c'] eqn:Hmc; cbn [fst snd] in *.
  - destruct (Hk a c') as (out' & Hc' & Hf'). exists (out ++ out').
    split; [|done]. rewrite Hc'. subst c'. cbn. by rewrite app_assoc.
  - by exists out.
  - by destruct (Hf msg).
Qed.

Lemma printsOnly_forEach {A} (l : list A) (body : A -> M unit) :
  (forall a, printsOnly (body a)) -> printsOnly (forEach l body).
Proof.
  intros Hbody. induction l as [|a l IH]; [apply printsOnly_ret|].
  cbn [forEach]. apply printsOnly_bind; [apply Hbody|by intros _].
Qed.

Lemma printsOnly_printWhen {A} (p : option A) (line : A -> string) :
  printsOnly (printWhen p line).
Proof. destruct p; [apply printsOnly_Print|apply printsOnly_ret]. Qed.

Lemma printsOnly_printMap plat title m : printsOnly (printMap plat title m).
Proof.
  destruct m as [m|]; [|apply printsOnly_ret]. cbn [printMap].
  apply printsOnly_bind; [apply printsOnly_Print|intros _].
  apply printsOnly_forEach. intros k. apply printsOnly_Print.
Qed.

Lemma printsOnly_printContainer plat quiet ctr :
  printsOnly (printContainer plat quiet ctr).
Proof.
  unfold printContainer. destruct quiet.
  - apply printsOnly_bind; [apply printsOnly_deref|intros ?].
    apply printsOnly_Print.
  - repeat first
      [ apply printsOnly_Print | apply printsOnly_deref
      | apply printsOnly_printWhen | apply printsOnly_printMap
      | apply printsOnly_ret
      | apply printsOnly_bind; [|intros ?]
      | match goal with |- printsOnly (match ?x with _ => _ end) =>
          destruct x end ].
Qed.

Lemma atMostOneRequest_StartContainer rpc ID :
  atMostOneRequest (StartContainer rpc ID).
Proof.
  intros c. unfold StartContainer, bind, send, Println, Print, ret.
  destruct (decide (ID = "")).
  { unchanged. }
  destruct (pb.RuntimeServiceClient.StartContainer rpc ID).
  - console [pb.StartContainerRequest ID] (@nil string).
  - console [pb.StartContainerRequest ID] [ID +:+ newline].
Qed.

Lemma atMostOneRequest_StopContainer rpc ID :
  atMostOneRequest (StopContainer rpc ID).
Proof.
  intros c. unfold StopContainer, bind, send, Println, Print, ret.
  destruct (decide (ID = "")).
  { unchanged. }
  destruct (pb.RuntimeServiceClient.StopContainer rpc ID).
  - console [pb.StopContainerRequest ID] (@nil string).
  - console [pb.StopContainerRequest ID] [ID +:+ newline].
Qed.

Lemma atMostOneRequest_RemoveContainer rpc ID :
  atMostOneRequest (RemoveContainer rpc ID).
Proof.
  intros c. unfold RemoveContainer, bind, send, Println, Print, ret.
  destruct (decide (ID = "")).
  { unchanged. }
  destruct (pb.RuntimeServiceClient.RemoveContainer rpc ID).
  - console [pb.RemoveContainerRequest ID] (@nil string).
  - console [pb.RemoveContainerRequest ID] [ID +:+ newline].
Qed.

Lemma atMostOneRequest_ExecSync rpc ID cmd timeout :
  atMostOneRequest (ExecSync rpc ID cmd timeout).
Proof.
  intros c. unfold ExecSync, bind, send, Println, Print, ret, deref, panic.
  destruct (decide (ID = "")).
  { unchanged. }
  destruct (pb.RuntimeServiceClient.ExecSync rpc ID cmd timeout) as [r|err].
  - destruct (pb.ExecSyncResponse.ExitCode r) as [code|].
    + console [pb.ExecSyncRequest ID cmd timeout]
        ["Stdout:" +:+ newline; pb.ExecSyncResponse.Stdout r +:+ newline;
         "Stderr:" +:+ newline; pb.ExecSyncResponse.Stderr r +:+ newline;
         "Exit code: " +:+ pretty code +:+ newline].
    + console [pb.ExecSyncRequest ID cmd timeout]
        ["Stdout:" +:+ newline; pb.ExecSyncResponse.Stdout r +:+ newline;
         "Stderr:" +:+ newline; pb.ExecSyncResponse.Stderr r +:+ newline].
  - console [pb.ExecSyncRequest ID cmd timeout] (@nil string).
Qed.

End Consoles.

Section Operations.

Import client.

Implicit Types (c : Console).

Lemma atMostOneRequest_CreateContainer plat rpc opts :
  atMostOneRequest (CreateContainer plat rpc opts).
Proof.
  intros c.
  destruct (loadContainerConfig plat (createOptions.configPath opts))
    as [config|err] eqn:Hload.
  2:{ unfold CreateContainer. rewrite Hload. unchanged. }
  destruct (overrideName (createOptions.name opts)
              (pb.ContainerConfig.Metadata config) c) as [r1 c1] eqn:Hmd.
  destruct (assignLabels (rangeMap (createOptions.labels opts))
              (pb.ContainerConfig.Labels config) c) as [r2 c2] eqn:Hls.
  assert (c1 = c /\ (r1 = Panic \/ exists md, r1 = Done md))
    as [-> Hr1].
  { rewrite overrideName_spec in Hmd.
    destruct (decide _), (pb.ContainerConfig.Metadata config);
      injection Hmd as <- <-; eauto. }
  assert (c2 = c /\ (r2 = Panic \/ exists ls, r2 = Done ls))
    as [-> Hr2].
  { destruct (pb.ContainerConfig.Labels config).
    - rewrite assignLabels_Some in Hls. injection Hls as <- <-. eauto.
    - rewrite assignLabels_None in Hls. injection Hls as <- <-.
      destruct (rangeMap _); eauto. }
  destruct Hr1 as [->|[md ->]].
  { rewrite (CreateContainer_panics _ _ _ _ _ Hload) by by left. unchanged. }
  destruct Hr2 as [->|[ls ->]].
  { rewrite (CreateContainer_panics _ _ _ _ _ Hload) by by right. unchanged. }
  rewrite (CreateContainer_sends _ _ _ _ _ _ _ Hload Hmd Hls). cbn zeta.
  destruct (pb.RuntimeServiceClient.CreateContainer rpc _ _) as [r|err].
  - destruct (pb.CreateContainerResponse.ContainerId r) as [cid|].
    + console [pb.CreateContainerRequest (createOptions.podID opts)
                 (pb.ContainerConfig.mk md ls (pb.ContainerConfig.Rest config))]
        [cid +:+ newline].
    + console [pb.CreateContainerRequest (createOptions.podID opts)
                 (pb.ContainerConfig.mk md ls (pb.ContainerConfig.Rest config))]
        (@nil string).
  - console [pb.CreateContainerRequest (createOptions.podID opts)
               (pb.ContainerConfig.mk md ls (pb.ContainerConfig.Rest config))]
      (@nil string).
Qed.

(** The [switch] on [opts.state], as a table. *)
Lemma stateFilter_states s c :
  stateFilter s c
  = match list_to_map (M := gmap string (option pb.ContainerState)) states !! s with
    | Some st => (Done st, c)
    | None =>
        (Fatal "--state should be one of created, running or stopped", c)
    end.
Proof.
  unfold stateFilter, states. cbn [list_to_map foldr uncurry fst snd].
  repeat case_decide; subst; by simplify_map_eq.
Qed.

(** What [ListContainers] does once the state has been accepted. *)
Lemma ListContainers_sends plat rpc opts st c :
  stateFilter (listOptions.state opts) c = (Done st, c) ->
  let filter :=
    pb.ContainerFilter.mk (nonEmpty (listOptions.id opts)) st
      (nonEmpty (listOptions.podID opts)) (listOptions.labels opts) in
  let c1 :=
    mkConsole (requests c ++ [pb.ListContainersRequest filter]) (stdout c)
      (connCloses c) in
  ListContainers plat rpc opts c
  = match pb.RuntimeServiceClient.ListContainers rpc filter with
    | inr err => (Done (Some err), c1)
    | inl containers =>
        let r :=
          forEach containers (printContainer plat (listOptions.quiet opts)) c1 in
        (match r.1 with
         | Done _ => Done None
         | Panic => Panic
         | Fatal msg => Fatal msg
         end, r.2)
    end.
Proof.
  intros Hst. cbn zeta. unfold ListContainers, bind. rewrite Hst. cbn [send].
  destruct (pb.RuntimeServiceClient.ListContainers rpc _) as [cs|err]; [|done].
  by destruct (forEach cs _ _) as [[[]| |msg] c'].
Qed.

Lemma ListContainers_fatal plat rpc opts msg c :
  stateFilter (listOptions.state opts) c = (Fatal msg, c) ->
  ListContainers plat rpc opts c = (Fatal msg, c).
Proof. intros Hst. unfold ListContainers, bind. by rewrite Hst. Qed.

Lemma atMostOneRequest_ListContainers plat rpc opts :
  atMostOneRequest (ListContainers plat rpc opts).
Proof.
  intros c. pose proof (stateFilter_states (listOptions.state opts) c) as Hst.
  destruct (list_to_map states !! listOptions.state opts) as [st|].
  2:{ rewrite (ListContainers_fatal _ _ _ _ _ Hst). unchanged. }
  rewrite (ListContainers_sends _ _ _ _ _ Hst). cbn zeta.
  destruct (pb.RuntimeServiceClient.ListContainers rpc _) as [cs|err].
  - match goal with |- context [forEach cs ?body ?c1] =>
      destruct (printsOnly_forEach cs body
                  (printsOnly_printContainer plat (listOptions.quiet opts)) c1)
        as (out & Hc & _);
      destruct (forEach cs body c1) as [r c'] end.
    cbn [fst snd] in *. subst c'. eexists [_], out. cbn.
    split; [done|]. split; [lia|]. split; [done|]. intros err. by destruct r.
  - eexists [_], []. cbn. rewrite app_nil_r. split; [done|].
    split; [lia|done].
Qed.

(** In quiet mode the loop prints the identifiers, one per line. *)
Lemma forEach_quiet plat (containers : list pb.Container.t)
    (ids : list string) c :
  Forall2 (fun ctr cid => pb.Container.Id ctr = Some cid) containers ids ->
  forEach containers (printContainer plat true) c
  = (Done tt,
     mkConsole (requests c)
       (stdout c ++ map (fun cid => cid +:+ newline) ids) (connCloses c)).
Proof.
  intros H. revert c. induction H as [|ctr cid cs ids Hid _ IH]; intros c.
  - cbn. rewrite app_nil_r. by destruct c.
  - cbn [forEach map]. unfold bind at 1. unfold printContainer at 1.
    rewrite Hid. cbn. rewrite IH. cbn. by rewrite <- app_assoc.
Qed.

(** An action body that passes the error of an operation on, wrapped. *)
Lemma bind_wrap (m : M (option error)) prefix c :
  bind m (fun err => ret (wrap prefix err)) c
  = (match (m c).1 with
     | Done err => Done (wrap prefix err)
     | Panic => Panic
     | Fatal msg => Fatal msg
     end, (m c).2).
Proof. unfold bind. by destruct (m c) as [[err| |msg] c']. Qed.

Lemma atMostOneRequest_connCloses (m : M (option error)) c :
  atMostOneRequest m -> connCloses (m c).2 = connCloses c.
Proof. intros H. destruct (H c) as (reqs & out & -> & _). done. Qed.

Lemma withClient_run plat context body c :
  withClient plat context body c
  = match getClientConnection plat context with
    | inr err => (Done (Some (Errorf ("failed to connect: " +:+ Error err))), c)
    | inl rpc =>
        (match (body rpc c).1 with
         | Fatal msg => (Fatal msg, (body rpc c).2)
         | r => (r, connClose (body rpc c).2)
         end)
    end.
Proof.
  unfold withClient, deferClose. destruct (getClientConnection _ _); [|done].
  by destruct (body _ c) as [[err| |msg] c'].
Qed.

End Operations.

Section NoFatal.

Import client.

Implicit Types (c : Console).

Lemma StartContainer_not_Fatal rpc ID c msg :
  (StartContainer rpc ID c).1 <> Fatal msg.
Proof.
  unfold StartContainer, bind, send, Println, Print, ret.
  destruct (decide (ID = "")); [done|].
  by destruct (pb.RuntimeServiceClient.StartContainer rpc ID).
Qed.

Lemma StopContainer_not_Fatal rpc ID c msg :
  (StopContainer rpc ID c).1 <> Fatal msg.
Proof.
  unfold StopContainer, bind, send, Println, Print, ret.
  destruct (decide (ID = "")); [done|].
  by destruct (pb.RuntimeServiceClient.StopContainer rpc ID).
Qed.

Lemma RemoveContainer_not_Fatal rpc ID c msg :
  (RemoveContainer rpc ID c).1 <> Fatal msg.
Proof.
  unfold RemoveContainer, bind, send, Println, Print, ret.
  destruct (decide (ID = "")); [done|].
  by destruct (pb.RuntimeServiceClient.RemoveContainer rpc ID).
Qed.

Lemma CreateContainer_not_Fatal plat rpc opts c msg :
  (CreateContainer plat rpc opts c).1 <> Fatal msg.
Proof.
  destruct (loadContainerConfig plat (createOptions.configPath opts))
    as [config|err] eqn:Hload.
  2:{ unfold CreateContainer. by rewrite Hload. }
  destruct (overrideName (createOptions.name opts)
              (pb.ContainerConfig.Metadata config) c) as [r1 c1] eqn:Hmd.
  destruct (assignLabels (rangeMap (createOptions.labels opts))
              (pb.ContainerConfig.Labels config) c) as [r2 c2] eqn:Hls.
  assert (c1 = c /\ (r1 = Panic \/ exists md, r1 = Done md))
    as [-> Hr1].
  { rewrite overrideName_spec in Hmd.
    destruct (decide _), (pb.ContainerConfig.Metadata config);
      injection Hmd as <- <-; eauto. }
  assert (c2 = c /\ (r2 = Panic \/ exists ls, r2 = Done ls))
    as [-> Hr2].
  { destruct (pb.ContainerConfig.Labels config).
    - rewrite assignLabels_Some in Hls. injection Hls as <- <-. eauto.
    - rewrite assignLabels_None in Hls. injection Hls as <- <-.
      destruct (rangeMap _); eauto. }
  destruct Hr1 as [->|[md ->]].
  { by rewrite (CreateContainer_panics _ _ _ _ _ Hload) by by left. }
  destruct Hr2 as [->|[ls ->]].
  { by rewrite (CreateContainer_panics _ _ _ _ _ Hload) by by right. }
  rewrite (CreateContainer_sends _ _ _ _ _ _ _ Hload Hmd Hls). cbn zeta.
  destruct (pb.RuntimeServiceClient.CreateContainer rpc _ _) as [r|err];
    [|done].
  by destruct (pb.CreateContainerResponse.ContainerId r).
Qed.

(** The result and the closing of the connection for an action whose body
    is one operation with its error wrapped. *)
Lemma action_closes plat context (op : pb.RuntimeServiceClient.t -> M (option error))
    prefix c :
  (forall rpc, atMostOneRequest (op rpc)) ->
  let r :=
    withClient plat context
      (fun rpc => bind (op rpc) (fun err => ret (wrap prefix err))) c in
  connCloses r.2
  = (connCloses c + closesDue (getClientConnection plat context) r.1)%nat /\
  ((forall rpc msg, (op rpc c).1 <> Fatal msg) ->
   forall msg, r.1 <> Fatal msg).
Proof.
  intros Hop. cbn zeta. rewrite withClient_run.
  destruct (getClientConnection plat context) as [rpc|err]; cbn [closesDue].
  2:{ split; [cbn; lia|done]. }
  rewrite bind_wrap. cbn [fst snd].
  pose proof (atMostOneRequest_connCloses _ c (Hop rpc)) as Hc.
  destruct ((op rpc c).1) as [e| |msg] eqn:Hr; cbn [fst snd connClose connCloses].
  - split; [lia|done].
  - split; [lia|done].
  - split; [lia|]. intros Hnf. by destruct (Hnf rpc msg).
Qed.

Lemma ExecSync_not_Fatal rpc ID cmd timeout c msg :
  (ExecSync rpc ID cmd timeout c).1 <> Fatal msg.
Proof.
  unfold ExecSync, bind, send, Println, Print, ret, deref, panic.
  destruct (decide (ID = "")); [done|].
  destruct (pb.RuntimeServiceClient.ExecSync rpc ID cmd timeout) as [r|err];
    [|done].
  by destruct (pb.ExecSyncResponse.ExitCode r).
Qed.

(** A computation that prints and then returns no error, unless it
    panics. *)
Lemma printsOnly_bind_None {A} (m : M A) (k : A -> M (option error)) :
  printsOnly m ->
  (forall a, printsOnly (k a) /\ forall c err, (k a c).1 <> Done (Some err)) ->
  printsOnly (bind m k) /\ forall c err, (bind m k c).1 <> Done (Some err).
Proof.
  intros Hm Hk. split; [apply printsOnly_bind; [done|apply Hk]|].
  intros c err. unfold bind. destruct (m c) as [[a| |msg] c']; [|done|done].
  apply Hk.
Qed.

(** What [ContainerStatus] does with the answer of the service. *)
Lemma ContainerStatus_prints plat (r : pb.ContainerStatusResponse.t) :
  let m : M (option error) :=
    bind (deref (pb.ContainerStatusResponse.Status r)) (fun status =>
    bind (deref (pb.ContainerStatus.Id status)) (fun cid =>
    bind (Print ("ID: " +:+ cid +:+ newline)) (fun _ =>
    bind (match pb.ContainerStatus.Metadata status with
          | Some md =>
              bind (printWhen (pb.ContainerMetadata.Name md)
                      (fun n => "Name: " +:+ n +:+ newline)) (fun _ =>
              printWhen (pb.ContainerMetadata.Attempt md)
                (fun a => "Attempt: " +:+ pretty a +:+ newline))
          | None => ret tt
          end) (fun _ =>
    bind (printWhen (pb.ContainerStatus.State status)
            (fun st => "Status: " +:+ stateString plat st +:+ newline)) (fun _ =>
    bind (printWhen (pb.ContainerStatus.CreatedAt status)
            (fun t => "Created: " +:+ formatTime plat t +:+ newline)) (fun _ =>
    bind (printWhen (pb.ContainerStatus.StartedAt status)
            (fun t => "Started: " +:+ formatTime plat t +:+ newline)) (fun _ =>
    bind (printWhen (pb.ContainerStatus.FinishedAt status)
            (fun t => "Finished: " +:+ formatTime plat t +:+ newline)) (fun _ =>
    bind (printWhen (pb.ContainerStatus.ExitCode status)
            (fun code => "Exit Code: " +:+ pretty code +:+ newline)) (fun _ =>
    ret None))))))))) in
  printsOnly m /\ forall c err, (m c).1 <> Done (Some err).
Proof.
  cbn zeta.
  repeat first
    [ apply printsOnly_bind_None; [|intros ?]
    | apply printsOnly_deref | apply printsOnly_Print
    | apply printsOnly_printWhen
    | match goal with |- printsOnly (match ?x with _ => _ end) =>
        destruct x end
    | apply printsOnly_bind; [|intros ?]
    | apply printsOnly_ret ].
  split; [apply printsOnly_ret|done].
Qed.

Lemma ContainerStatus_run plat rpc ID c :
  ID <> ""%string ->
  let c1 :=
    mkConsole (requests c ++ [pb.ContainerStatusRequest ID]) (stdout c)
      (connCloses c) in
  match pb.RuntimeServiceClient.ContainerStatus rpc ID with
  | inr err => ContainerStatus plat rpc ID c = (Done (Some err), c1)
  | inl r =>
      exists out,
        (ContainerStatus plat rpc ID c).2
        = mkConsole (requests c1) (stdout c ++ out) (connCloses c) /\
        (forall msg, (ContainerStatus plat rpc ID c).1 <> Fatal msg) /\
        forall err, (ContainerStatus plat rpc ID c).1 <> Done (Some err)
  end.
Proof.
  intros Hne. cbn zeta. unfold ContainerStatus.
  rewrite decide_False by done. unfold bind at 1. cbn [send].
  destruct (pb.RuntimeServiceClient.ContainerStatus rpc ID) as [r|err];
    [|done].
  destruct (ContainerStatus_prints plat r) as [Hp Hn].
  match goal with |- context [(?m ?c1).2] =>
    destruct (Hp c1) as (out & Hc & Hf); exists out end.
  split; [exact Hc|]. split; [exact Hf|apply Hn].
Qed.

Lemma atMostOneRequest_ContainerStatus plat rpc ID :
  atMostOneRequest (ContainerStatus plat rpc ID).
Proof.
  intros c. destruct (decide (ID = ""%string)) as [->|Hne].
  { unfold ContainerStatus. cbn. unchanged. }
  pose proof (ContainerStatus_run plat rpc ID c Hne) as Hrun. cbn zeta in Hrun.
  destruct (pb.RuntimeServiceClient.ContainerStatus rpc ID) as [r|err].
  - destruct Hrun as (out & Hc & _ & Hn).
    exists [pb.ContainerStatusRequest ID], out. split; [exact Hc|].
    split; [cbn; lia|]. split; [done|]. intros err H. by destruct (Hn err).
  - rewrite Hrun. console [pb.ContainerStatusRequest ID] (@nil string).
Qed.

Lemma ContainerStatus_not_Fatal plat rpc ID c msg :
  (ContainerStatus plat rpc ID c).1 <> Fatal msg.
Proof.
  destruct (decide (ID = ""%string)) as [->|Hne]; [done|].
  pose proof (ContainerStatus_run plat rpc ID c Hne) as Hrun. cbn zeta in Hrun.
  destruct (pb.RuntimeServiceClient.ContainerStatus rpc ID) as [r|err].
  - by destruct Hrun as (out & _ & Hf & _).
  - by rewrite Hrun.
Qed.

End NoFatal.

(** X13. [StartContainer], [StopContainer], [RemoveContainer],
    [ContainerStatus] and [ExecSync] refuse an empty container ID: they
    return [ID cannot be empty] and neither send nor print anything.  Every
    request they send is for the ID they were given, which is then not
    empty. *)
Theorem X13_no_request_for_an_empty_ID
    (plat : client.Platform) (rpc : client.pb.RuntimeServiceClient.t)
    (ID : string) (cmd : list string) (timeout : Z) (c : client.Console) :
  Forall
    (fun op : client.M (option client.error) =>
       (ID = ""%string ->
        op c = (client.Done (Some (client.Errorf "ID cannot be empty")), c)) /\
       forall req,
         req ∈ client.requests (op c).2 ->
         req ∈ client.requests c \/ (containerOf req = Some ID /\ ID <> ""%string))
    [client.StartContainer rpc ID; client.StopContainer rpc ID;
     client.RemoveContainer rpc ID; client.ExecSync rpc ID cmd timeout;
     client.ContainerStatus plat rpc ID].
Proof.
  repeat apply Forall_cons_2; [..|apply Forall_nil_2].
  5:{ destruct (decide (ID = ""%string)) as [->|Hne];
        [split; [done|intros req Hreq; by left]|].
      split; [done|intros req].
      pose proof (ContainerStatus_run plat rpc ID c Hne) as Hrun.
      cbn zeta in Hrun.
      destruct (client.pb.RuntimeServiceClient.ContainerStatus rpc ID)
        as [r|err]; [destruct Hrun as (out & -> & _)|rewrite Hrun]; cbn;
        (intros [?|Hreq]%elem_of_app;
         [by left|apply list_elem_of_singleton in Hreq as ->; by right]). }
  all: unfold client.StartContainer, client.StopContainer,
         client.RemoveContainer, client.ExecSync,
         client.bind, client.send, client.Println, client.Print, client.ret,
         client.deref, client.panic.
  all: destruct (decide (ID = ""%string)) as [->|Hne];
         [split; [done|intros req Hreq; by left]|].
  all: split; [done|intros req].
  - destruct (client.pb.RuntimeServiceClient.StartContainer rpc ID); cbn;
      (intros [?|Hreq]%elem_of_app;
      [by left|apply list_elem_of_singleton in Hreq as ->; by right]).
  - destruct (client.pb.RuntimeServiceClient.StopContainer rpc ID); cbn;
      (intros [?|Hreq]%elem_of_app;
      [by left|apply list_elem_of_singleton in Hreq as ->; by right]).
  - destruct (client.pb.RuntimeServiceClient.RemoveContainer rpc ID); cbn;
      (intros [?|Hreq]%elem_of_app;
      [by left|apply list_elem_of_singleton in Hreq as ->; by right]).
  - destruct (client.pb.RuntimeServiceClient.ExecSync rpc ID cmd timeout)
      as [r|err]; [destruct (client.pb.ExecSyncResponse.ExitCode r)|]; cbn;
      (intros [?|Hreq]%elem_of_app;
      [by left|apply list_elem_of_singleton in Hreq as ->; by right]).
Qed.

(** X14. Each operation of the client -- [CreateContainer],
    [StartContainer], [StopContainer], [RemoveContainer], [ContainerStatus],
    [ExecSync], [ListContainers] -- sends at most one request, prints nothing unless it
    has sent one, prints nothing when it returns an error, and does not
    touch the connection. *)
Theorem X14_operations_send_at_most_one_request
    (plat : client.Platform) (rpc : client.pb.RuntimeServiceClient.t)
    (ID : string) (cmd : list string) (timeout : Z)
    (copts : client.createOptions.t) (lopts : client.listOptions.t) :
  Forall atMostOneRequest
    [client.CreateContainer plat rpc copts; client.StartContainer rpc ID;
     client.StopContainer rpc ID; client.RemoveContainer rpc ID;
     client.ContainerStatus plat rpc ID; client.ExecSync rpc ID cmd timeout;
     client.ListContainers plat rpc lopts].
Proof.
  repeat apply Forall_cons_2; [..|apply Forall_nil_2].
  - apply atMostOneRequest_CreateContainer.
  - apply atMostOneRequest_StartContainer.
  - apply atMostOneRequest_StopContainer.
  - apply atMostOneRequest_RemoveContainer.
  - apply atMostOneRequest_ContainerStatus.
  - apply atMostOneRequest_ExecSync.
  - apply atMostOneRequest_ListContainers.
Qed.

(** X15. [ListContainers] accepts the states [""], [created], [running] and
    [stopped].  For any other state the process ends in [log.Fatalf] with
    nothing sent and nothing printed.  For an accepted state it does not end
    the process and sends one request, whose filter has the state of the
    table ([stopped] standing for exited containers), the id and the pod
    when they are not empty, and the labels as given. *)
Theorem X15_ListContainers_state_and_filter
    (plat : client.Platform) (rpc : client.pb.RuntimeServiceClient.t)
    (opts : client.listOptions.t) (c : client.Console) :
  let r := client.ListContainers plat rpc opts c in
  match list_to_map (M := gmap string (option client.pb.ContainerState)) states
        !! client.listOptions.state opts with
  | None =>
      r = (client.Fatal "--state should be one of created, running or stopped",
           c)
  | Some st =>
      (forall msg, r.1 <> client.Fatal msg) /\
      client.requests r.2
      = client.requests c ++
        [client.pb.ListContainersRequest
           (client.pb.ContainerFilter.mk
              (if decide (client.listOptions.id opts = ""%string) then None
               else Some (client.listOptions.id opts))
              st
              (if decide (client.listOptions.podID opts = ""%string) then None
               else Some (client.listOptions.podID opts))
              (client.listOptions.labels opts))]
  end.
Proof.
  cbn zeta.
  pose proof (stateFilter_states (client.listOptions.state opts) c) as Hst.
  destruct (list_to_map states !! client.listOptions.state opts) as [st|].
  2:{ by apply ListContainers_fatal. }
  rewrite (ListContainers_sends _ _ _ _ _ Hst). cbn zeta.
  destruct (client.pb.RuntimeServiceClient.ListContainers rpc _) as [cs|err];
    [|done].
  match goal with |- context [client.forEach cs ?body ?c1] =>
    destruct (printsOnly_forEach cs body
                (printsOnly_printContainer plat (client.listOptions.quiet opts))
                c1) as (out & Hc & Hnf);
    destruct (client.forEach cs body c1) as [res c'] end.
  cbn [fst snd] in *. subst c'. split; [|done].
  intros msg. destruct res as [[]| |msg']; try done. by destruct (Hnf msg').
Qed.

(** X16. With [--quiet] and an accepted state, when the service answers with
    containers that all have an identifier, [ListContainers] prints exactly
    these identifiers, one per line and in the order of the answer, and
    returns no error. *)
Theorem X16_ListContainers_quiet_prints_the_ids
    (plat : client.Platform) (rpc : client.pb.RuntimeServiceClient.t)
    (opts : client.listOptions.t) (st : option client.pb.ContainerState)
    (containers : list client.pb.Container.t) (ids : list string)
    (c : client.Console) :
  client.listOptions.quiet opts = true ->
  list_to_map (M := gmap string (option client.pb.ContainerState)) states
    !! client.listOptions.state opts = Some st ->
  let filter :=
    client.pb.ContainerFilter.mk
      (client.nonEmpty (client.listOptions.id opts)) st
      (client.nonEmpty (client.listOptions.podID opts))
      (client.listOptions.labels opts) in
  client.pb.RuntimeServiceClient.ListContainers rpc filter = inl containers ->
  Forall2 (fun ctr cid => client.pb.Container.Id ctr = Some cid)
    containers ids ->
  client.ListContainers plat rpc opts c
  = (client.Done None,
     client.mkConsole
       (client.requests c ++ [client.pb.ListContainersRequest filter])
       (client.stdout c ++ map (fun cid => cid +:+ client.newline) ids)
       (client.connCloses c)).
Proof.
  intros Hq Hst filter Hrpc Hids.
  pose proof (stateFilter_states (client.listOptions.state opts) c) as Hsf.
  rewrite Hst in Hsf. rewrite (ListContainers_sends _ _ _ _ _ Hsf).
  cbn zeta. fold filter. rewrite Hrpc, Hq.
  by rewrite (forEach_quiet _ _ _ _ Hids).
Qed.

(** X16 for [list --quiet --state running] when the service lists [c1] and
    [c2]. *)
Lemma X16_witness :
  client.ListContainers ClientExample.plat ClientExample.rpc
    ClientExample.listQuiet client.start
  = (client.Done None,
     client.mkConsole
       [client.pb.ListContainersRequest
          (client.pb.ContainerFilter.mk None
             (Some client.pb.ContainerState_CONTAINER_RUNNING) None (Some ∅))]
       ["c1" +:+ client.newline; "c2" +:+ client.newline] 0).
Proof.
  apply (X16_ListContainers_quiet_prints_the_ids ClientExample.plat
           ClientExample.rpc ClientExample.listQuiet
           (Some client.pb.ContainerState_CONTAINER_RUNNING)
           [ClientExample.container "c1"; ClientExample.container "c2"]
           ["c1"; "c2"]%string client.start).
  - reflexivity.
  - reflexivity.
  - reflexivity.
  - by repeat constructor.
Defined.

(** X17. Each of the actions [create], [start], [stop], [remove], [status],
    [execsync] and [list] closes the connection once when it returns or
    panics after having connected, and not at all when it could not connect
    or when the process ends in [log.Fatalf]; the latter happens in no
    action but [list]. *)
Theorem X17_actions_close_the_connection
    (plat : client.Platform) (context : client.cli.Context)
    (c : client.Console) :
  Forall
    (fun na : string * (client.Platform -> client.cli.Context ->
                        client.M (option client.error)) =>
       let r := na.2 plat context c in
       client.connCloses r.2
       = (client.connCloses c
          + closesDue (client.getClientConnection plat context) r.1)%nat /\
       (na.1 <> "list"%string -> forall msg, r.1 <> client.Fatal msg))
    actions.
Proof.
  unfold actions. repeat apply Forall_cons_2; [..|apply Forall_nil_2];
    cbn [fst snd]; cbn zeta.
  - unfold client.createAction.
    destruct (negb (client.cli.IsSet context "pod")) eqn:Hpod;
      [|destruct (client.parseLabels _ ∅) as [labels|err] eqn:Hl].
    1,3: rewrite withClient_run;
      destruct (client.getClientConnection plat context);
      cbn; (split; [lia|done]).
    pose proof (action_closes plat context
                  (fun rpc =>
                     client.CreateContainer plat rpc
                       (client.createOptions.mk
                          (client.cli.String context "config")
                          (client.cli.String context "name")
                          (client.cli.String context "pod") (Some labels)))
                  "Creating container failed: " c
                  (fun rpc => atMostOneRequest_CreateContainer plat rpc _))
      as [H1 H2].
    split; [exact H1|]. intros _. apply H2. intros rpc msg.
    apply CreateContainer_not_Fatal.
  - pose proof (action_closes plat context
                  (fun rpc =>
                     client.StartContainer rpc (client.cli.String context "id"))
                  "Starting the container failed: " c
                  (fun rpc => atMostOneRequest_StartContainer rpc _))
      as [H1 H2].
    split; [exact H1|]. intros _. apply H2. intros rpc msg.
    apply StartContainer_not_Fatal.
  - pose proof (action_closes plat context
                  (fun rpc =>
                     client.StopContainer rpc (client.cli.String context "id"))
                  "Stopping the container failed: " c
                  (fun rpc => atMostOneRequest_StopContainer rpc _))
      as [H1 H2].
    split; [exact H1|]. intros _. apply H2. intros rpc msg.
    apply StopContainer_not_Fatal.
  - pose proof (action_closes plat context
                  (fun rpc =>
                     client.RemoveContainer rpc (client.cli.String context "id"))
                  "Removing the container failed: " c
                  (fun rpc => atMostOneRequest_RemoveContainer rpc _))
      as [H1 H2].
    split; [exact H1|]. intros _. apply H2. intros rpc msg.
    apply RemoveContainer_not_Fatal.
  - pose proof (action_closes plat context
                  (fun rpc =>
                     client.ContainerStatus plat rpc
                       (client.cli.String context "id"))
                  "Getting the status of the container failed: " c
                  (fun rpc => atMostOneRequest_ContainerStatus plat rpc _))
      as [H1 H2].
    split; [exact H1|]. intros _. apply H2. intros rpc msg.
    apply ContainerStatus_not_Fatal.
  - pose proof (action_closes plat context
                  (fun rpc =>
                     client.ExecSync rpc (client.cli.String context "id")
                       (client.cli.Args context)
                       (client.cli.Int64 context "timeout"))
                  "execing command in container failed: " c
                  (fun rpc => atMostOneRequest_ExecSync rpc _ _ _))
      as [H1 H2].
    split; [exact H1|]. intros _. apply H2. intros rpc msg.
    apply ExecSync_not_Fatal.
  - split; [|done]. unfold client.listAction.
    destruct (client.parseLabels _ ∅) as [labels|err] eqn:Hl.
    + apply (action_closes plat context
               (fun rpc =>
                  client.ListContainers plat rpc
                    (client.listOptions.mk (client.cli.String context "id")
                       (client.cli.String context "pod")
                       (client.cli.String context "state")
                       (client.cli.Bool context "quiet") (Some labels)))
               "listing containers failed: " c
               (fun rpc => atMostOneRequest_ListContainers plat rpc _)).
    + rewrite withClient_run.
      destruct (client.getClientConnection plat context); cbn; lia.
Qed.

(** X18. After connecting, [create] checks [--pod] first and then the
    labels, and [list] checks the labels: without [--pod], [create] returns
    the error that asks for it; with a malformed label, [list] (and [create]
    when [--pod] is set) returns the error of the first malformed label, not
    prefixed with the name of the command.  In each case nothing is sent or
    printed and the connection is closed. *)
Theorem X18_actions_validate_before_sending
    (plat : client.Platform) (context : client.cli.Context)
    (rpc : client.pb.RuntimeServiceClient.t) (c : client.Console) :
  client.getClientConnection plat context = inl rpc ->
  let labels := client.cli.StringSlice context "label" in
  (client.cli.IsSet context "pod" = false ->
   client.createAction plat context c
   = (client.Done (Some (client.Errorf "Please specify the id of the pod sandbox to which the container belongs via the --pod option")),
      client.connClose c)) /\
  (~ Forall wellFormed labels ->
   exists pre l post,
     labels = pre ++ l :: post /\ Forall wellFormed pre /\ ~ wellFormed l /\
     let failed :=
       (client.Done
          (Some (client.Errorf ("incorrectly specified label: " +:+ l))),
        client.connClose c) in
     client.listAction plat context c = failed /\
     (client.cli.IsSet context "pod" = true ->
      client.createAction plat context c = failed)).
Proof.
  intros Hconn. cbn zeta. split.
  - intros Hpod. unfold client.createAction.
    rewrite withClient_run, Hconn, Hpod. done.
  - intros Hbad.
    pose proof (parseLabels_outcome (client.cli.StringSlice context "label") ∅)
      as Hout.
    destruct (client.parseLabels _ ∅) as [m|err] eqn:Hl; [done|].
    destruct Hout as (pre & l & post & Hls & Hpre & Hl' & ->).
    exists pre, l, post. do 3 (split; [done|]). split.
    + unfold client.listAction. by rewrite withClient_run, Hconn, Hl.
    + intros Hpod. unfold client.createAction.
      by rewrite withClient_run, Hconn, Hpod, Hl.
Qed.

(** X18 for [--pod pod1 --label env=prod --label oops]. *)
Lemma X18_witness :
  exists pre l post,
    ["env=prod"; "oops"]%string = pre ++ l :: post /\
    Forall wellFormed pre /\ ~ wellFormed l /\
    let failed :=
      (client.Done
         (Some (client.Errorf ("incorrectly specified label: " +:+ l))),
       client.connClose client.start) in
    client.listAction ClientExample.plat ClientExample.badLabels client.start
    = failed /\
    (client.cli.IsSet ClientExample.badLabels "pod" = true ->
     client.createAction ClientExample.plat ClientExample.badLabels client.start
     = failed).
Proof.
  apply (X18_actions_validate_before_sending ClientExample.plat
           ClientExample.badLabels ClientExample.rpc client.start).
  - reflexivity.
  - intros H. apply Forall_cons in H as [_ H].
    apply Forall_cons in H as [H _]. discriminate H.
Defined.
